(** * purseauction: the scraper of [scripts/scrape.js]

    A shallow embedding of the pure part of the scraper: the helpers
    [toNumber], [extractLotObjects] and [pickBidForLot], and the part of
    [main] that runs once the page's HTML is at hand (deduplication, entry
    construction, sort and totals).  The browser session, the clock
    ([ts], [auction_closing]) and the file system are not modelled.

    JavaScript data is modelled as the language has it: a string is a
    sequence of UTF-16 code units, a number is an IEEE 754 binary64 value
    (Rocq's primitive [float]), a [Map] is a finite map. *)

From Stdlib Require Import ZArith NArith String Ascii Floats Sorted.
From stdpp Require Import strings gmap list.

Local Open Scope N_scope.
Local Open Scope list_scope.

(** ** Strings *)

Module JSString.

(** A string is its list of UTF-16 code units. *)
Abbreviation jstring := (list N).

(** An ASCII literal, code unit by code unit. *)
Definition lit (s : string) : jstring :=
  List.map N_of_ascii (list_ascii_of_string s).

(** The same, where an apostrophe in [s] stands for the double quote
    (code unit 34): the texts of this file are JSON, and carry no
    apostrophe of their own. *)
Definition q (s : string) : jstring :=
  List.map (fun c => if c =? 39 then 34 else c) (lit s).

(** [s.startsWith(p)] at the head of [s]. *)
Fixpoint starts_with (p s : jstring) : bool :=
  match p, s with
  | [], _ => true
  | _ :: _, [] => false
  | a :: p', b :: s' => (a =? b) && starts_with p' s'
  end.

(** The first index [k >= 0] of [s] at which [p] occurs, counted from
    [base]. *)
Fixpoint index_from (p s : jstring) (base : nat) : option nat :=
  if starts_with p s then Some base
  else match s with
       | [] => None
       | _ :: s' => index_from p s' (S base)
       end.

(** [s.indexOf(p, pos)]: the position is clamped to the length of [s]
    ([drop] past the end leaves the empty string); [None] is JavaScript's
    [-1]. *)
Definition indexOf (s p : jstring) (pos : nat) : option nat :=
  index_from p (drop pos s) (Nat.min pos (length s)).

(** [s.slice(a, b)] for [0 <= a], [0 <= b]. *)
Definition slice (s : jstring) (a b : nat) : jstring :=
  take (b - a) (drop a s).

(** WhiteSpace and LineTerminator of ECMAScript: what [trim], [\s],
    [parseFloat] and [Number] skip. *)
Definition is_space (c : N) : bool :=
  (c =? 9) || (c =? 10) || (c =? 11) || (c =? 12) || (c =? 13) ||
  (c =? 32) || (c =? 160) || (c =? 5760) ||
  ((8192 <=? c) && (c <=? 8202)) ||
  (c =? 8232) || (c =? 8233) || (c =? 8239) || (c =? 8287) ||
  (c =? 12288) || (c =? 65279).

Fixpoint trim_start (s : jstring) : jstring :=
  match s with
  | c :: s' => if is_space c then trim_start s' else s
  | [] => []
  end.

Definition trim_end (s : jstring) : jstring :=
  rev (trim_start (rev s)).

Definition trim (s : jstring) : jstring := trim_end (trim_start s).

Definition is_digit (c : N) : bool := (48 <=? c) && (c <=? 57).

Definition digit_val (c : N) : Z := Z.of_N (c - 48).

(** The longest prefix of decimal digits, and the rest. *)
Fixpoint span_digits (s : jstring) : jstring * jstring :=
  match s with
  | c :: s' =>
      if is_digit c
      then let '(d, r) := span_digits s' in (c :: d, r)
      else ([], s)
  | [] => ([], [])
  end.

(** The value of a digit string, most significant digit first. *)
Definition digits_val (d : jstring) : Z :=
  fold_left (fun acc c => (10 * acc + digit_val c)%Z) d 0%Z.

End JSString.
Import JSString.

(** ** Numbers *)

Module JSNumber.

(** The Number value of [(-1)^neg * m * 2^e]: round to nearest, ties to
    even, as IEEE 754 binary64 does. *)
Definition round_bin (neg : bool) (m : Z) (e : Z) : float :=
  SF2Prim (binary_normalize prec emax (if neg then (- m)%Z else m) e neg).

(** The Number value of [(-1)^neg * m * 10^e] for [0 <= m].  With
    [e < 0] the quotient [m / 10^-e] is taken to 80 bits or more, its last
    bit made sticky, before rounding: that rounds as the exact
    quotient does. *)
Definition round_dec (neg : bool) (m : Z) (e : Z) : float :=
  if (m =? 0)%Z then (if neg then neg_zero else zero)
  else if (0 <=? e)%Z then round_bin neg (m * 10 ^ e) 0
  else
    let d := (10 ^ (- e))%Z in
    let s := Z.max 0 (80 + Z.log2 d - Z.log2 m)%Z in
    let n := Z.shiftl m s in
    let qt := (n / d)%Z in
    let sticky := if (n mod d =? 0)%Z then 0%Z else 1%Z in
    round_bin neg (2 * qt + sticky) (- s - 1).

(** ExponentPart, when one is there: [e] or [E], a sign or none, one
    digit or more; otherwise nothing is consumed. *)
Definition parse_exponent (s : jstring) : Z * jstring :=
  match s with
  | c :: s1 =>
      if (c =? 101) || (c =? 69) then
        let '(neg, s2) :=
          match s1 with
          | 43 :: r => (false, r)
          | 45 :: r => (true, r)
          | _ => (false, s1)
          end in
        let '(d, r) := span_digits s2 in
        match d with
        | [] => (0%Z, s)
        | _ => ((if neg : bool then - digits_val d else digits_val d)%Z, r)
        end
      else (0%Z, s)
  | [] => (0%Z, s)
  end.

(** The longest prefix of [s] that is a StrUnsignedDecimalLiteral
    ([Infinity], [12], [12.], [12.5], [.5], each of the last four with an
    exponent or none), its Number value under the sign [neg], and the rest
    of [s]. *)
Definition parse_unsigned_decimal (neg : bool) (s : jstring)
  : option (float * jstring) :=
  if starts_with (lit "Infinity") s
  then Some (if neg then neg_infinity else infinity, drop 8 s)
  else
    let '(ip, r1) := span_digits s in
    match r1 with
    | 46 :: r2 =>
        let '(fp, r3) := span_digits r2 in
        match ip, fp with
        | [], [] => None
        | _, _ =>
            let '(e, r4) := parse_exponent r3 in
            Some (round_dec neg (digits_val (ip ++ fp))
                    (e - Z.of_nat (length fp)), r4)
        end
    | _ =>
        match ip with
        | [] => None
        | _ =>
            let '(e, r4) := parse_exponent r1 in
            Some (round_dec neg (digits_val ip) e, r4)
        end
    end.

(** StrDecimalLiteral: an optional sign, then the above. *)
Definition parse_decimal (s : jstring) : option (float * jstring) :=
  match s with
  | 43 :: r => parse_unsigned_decimal false r
  | 45 :: r => parse_unsigned_decimal true r
  | _ => parse_unsigned_decimal false s
  end.

(** [parseFloat(s)] for a string [s]. *)
Definition parseFloat (s : jstring) : float :=
  match parse_decimal (trim_start s) with
  | Some (x, _) => x
  | None => nan
  end.

(** [parseInt(s, 10)] for a string [s]. *)
Definition parseInt10 (s : jstring) : float :=
  let t := trim_start s in
  let '(neg, u) :=
    match t with
    | 43 :: r => (false, r)
    | 45 :: r => (true, r)
    | _ => (false, t)
    end in
  match span_digits u with
  | ([], _) => nan
  | (d, _) => round_dec neg (digits_val d) 0
  end.

(** The digits of [0x..], [0o..] and [0b..] literals. *)
Definition radix_digit (radix : Z) (c : N) : option Z :=
  let v :=
    if is_digit c then Some (digit_val c)
    else if (97 <=? c) && (c <=? 102) then Some (Z.of_N (c - 87))
    else if (65 <=? c) && (c <=? 70) then Some (Z.of_N (c - 55))
    else None in
  match v with
  | Some d => if (d <? radix)%Z then Some d else None
  | None => None
  end.

Fixpoint radix_val (radix : Z) (acc : Z) (s : jstring) : option Z :=
  match s with
  | [] => Some acc
  | c :: s' =>
      match radix_digit radix c with
      | Some d => radix_val radix (radix * acc + d)%Z s'
      | None => None
      end
  end.

Definition parse_radix (radix : Z) (s : jstring) : float :=
  match s with
  | [] => nan
  | _ => match radix_val radix 0 s with
         | Some v => round_bin false v 0
         | None => nan
         end
  end.

(** [Number(s)] for a string [s] (StringToNumber): white space trimmed
    at both ends, the empty string is [0], the whole of what is left must
    be a numeric literal. *)
Definition Number_of_string (s : jstring) : float :=
  match trim s with
  | [] => zero
  | 48 :: 120 :: r | 48 :: 88 :: r => parse_radix 16 r
  | 48 :: 111 :: r | 48 :: 79 :: r => parse_radix 8 r
  | 48 :: 98 :: r | 48 :: 66 :: r => parse_radix 2 r
  | t => match parse_decimal t with
         | Some (x, []) => x
         | _ => nan
         end
  end.

(** [Number.isFinite(x)] for a number [x]. *)
Definition isFinite (x : float) : bool := is_finite x.

(** *** Number to string *)

Fixpoint uint_units (u : Decimal.uint) : jstring :=
  match u with
  | Decimal.Nil => []
  | Decimal.D0 u' => 48 :: uint_units u'
  | Decimal.D1 u' => 49 :: uint_units u'
  | Decimal.D2 u' => 50 :: uint_units u'
  | Decimal.D3 u' => 51 :: uint_units u'
  | Decimal.D4 u' => 52 :: uint_units u'
  | Decimal.D5 u' => 53 :: uint_units u'
  | Decimal.D6 u' => 54 :: uint_units u'
  | Decimal.D7 u' => 55 :: uint_units u'
  | Decimal.D8 u' => 56 :: uint_units u'
  | Decimal.D9 u' => 57 :: uint_units u'
  end.

(** The decimal digits of [z >= 0]. *)
Definition decimal_of_Z (z : Z) : jstring := uint_units (N.to_uint (Z.to_N z)).

(** [num / den < 10^n], for [0 < den]. *)
Definition below_pow10 (num den n : Z) : bool :=
  if (0 <=? n)%Z then (num <? 10 ^ n * den)%Z
  else (num * 10 ^ (- n) <? den)%Z.

(** The [n] with [10^(n-1) <= num/den < 10^n], for a positive binary64
    value [num/den]: those lie between [10^-324] and [10^309]. *)
Definition decimal_exponent (num den : Z) : Z :=
  match List.find (fun n => below_pow10 num den n)
          (List.map (fun i => (Z.of_nat i - 324)%Z) (seq 0 634)) with
  | Some n => n
  | None => 309%Z
  end.

(** The digits [s] (as a number with [k] digits) and the exponent [n] of
    Number::toString for the positive finite [x = num/den]: the least [k]
    for which some [s * 10^(n-k)] has [x] as its Number value, and the
    [s] closest to [x] (the even one on a tie). *)
Definition shortest_at (x : float) (num den n0 k : Z) : option (Z * Z) :=
  (* t = x * 10^(k - n0) = tn / td *)
  let sh := (k - n0)%Z in
  let tn := if (0 <=? sh)%Z then (num * 10 ^ sh)%Z else num in
  let td := if (0 <=? sh)%Z then den else (den * 10 ^ (- sh))%Z in
  let lo := (tn / td)%Z in
  let hi := (lo + 1)%Z in
  let ok s := (round_dec false s (n0 - k) =? x)%float in
  let pick s := if (s =? 10 ^ k)%Z then (10 ^ (k - 1), n0 + 1)%Z else (s, n0) in
  match ok lo, ok hi with
  | true, false => Some (pick lo)
  | false, true => Some (pick hi)
  | false, false => None
  | true, true =>
      match (2 * tn ?= (2 * lo + 1) * td)%Z with
      | Lt => Some (pick lo)
      | Gt => Some (pick hi)
      | Eq => Some (pick (if Z.even lo then lo else hi))
      end
  end.

Fixpoint shortest_from (x : float) (num den n0 : Z) (k : Z) (fuel : nat)
  : Z * Z * Z :=
  match fuel with
  | O => (0, 1, 1)%Z
  | S fuel' =>
      match shortest_at x num den n0 k with
      | Some (s, n) => (s, k, n)
      | None => shortest_from x num den n0 (k + 1) fuel'
      end
  end.

Definition zeros (n : Z) : jstring := replicate (Z.to_nat n) 48.

(** Number::toString(x), radix 10. *)
Definition Number_toString (x : float) : jstring :=
  match Prim2SF x with
  | S754_nan => lit "NaN"
  | S754_zero _ => lit "0"
  | S754_infinity neg => (if neg then lit "-" else []) ++ lit "Infinity"
  | S754_finite neg m e =>
      let num := if (0 <=? e)%Z then (Z.pos m * 2 ^ e)%Z else Z.pos m in
      let den := if (0 <=? e)%Z then 1%Z else (2 ^ (- e))%Z in
      let n0 := decimal_exponent num den in
      let '(s, k, n) := shortest_from (abs x) num den n0 1 17 in
      let ds := decimal_of_Z s in
      let body :=
        if (k <=? n)%Z && (n <=? 21)%Z then ds ++ zeros (n - k)
        else if (0 <? n)%Z && (n <=? 21)%Z
             then take (Z.to_nat n) ds ++ 46 :: drop (Z.to_nat n) ds
        else if (-6 <? n)%Z && (n <=? 0)%Z
             then lit "0." ++ zeros (- n) ++ ds
        else
          let ex := (n - 1)%Z in
          let tail :=
            101 :: (if (ex <? 0)%Z then 45 else 43)
                :: decimal_of_Z (Z.abs ex) in
          match ds with
          | d :: [] => d :: tail
          | d :: rest => d :: 46 :: rest ++ tail
          | [] => tail
          end in
      (if neg then lit "-" else []) ++ body
  end.

End JSNumber.
Import JSNumber.

(** ** Values *)

#[warnings="-register-all"]
Inductive value : Type :=
| JUndefined
| JNull
| JBool (b : bool)
| JNum (x : float)
| JStr (s : jstring)
| JArr (elems : list value)
| JObj (props : list (jstring * value)).

(** A [throw] that nothing catches before [main().catch]: the only one
    the scraper can raise once the page is loaded is a [TypeError]. *)
Inductive result (A : Type) : Type :=
| Ok (a : A)
| TypeError.
Arguments Ok {A} a.
Arguments TypeError {A}.

#[export] Instance result_ret : MRet result := fun _ a => Ok a.
#[export] Instance result_bind : MBind result :=
  fun _ _ f m => match m with Ok a => f a | TypeError => TypeError end.

Module JSValue.

(** ToBoolean. *)
Definition truthy (v : value) : bool :=
  match v with
  | JUndefined | JNull => false
  | JBool b => b
  | JNum x => negb (is_zero x || is_nan x)
  | JStr s => match s with [] => false | _ => true end
  | JArr _ | JObj _ => true
  end.

(** [a || b]. *)
Definition js_or (a b : value) : value := if truthy a then a else b.

(** [x == null]. *)
Definition is_nullish (v : value) : bool :=
  match v with JUndefined | JNull => true | _ => false end.

(** [x === true]. *)
Definition is_true (v : value) : bool :=
  match v with JBool true => true | _ => false end.

(** The own property [k] of a record of properties: the first binding
    (bindings are kept unique by [set_prop]). *)
Fixpoint lookup_prop (k : jstring) (props : list (jstring * value))
  : option value :=
  match props with
  | [] => None
  | (k', v) :: props' =>
      if bool_decide (k' = k) then Some v else lookup_prop k props'
  end.

(** [o[k] = v] on a data object: an existing property keeps its place. *)
Fixpoint set_prop (k : jstring) (v : value) (props : list (jstring * value))
  : list (jstring * value) :=
  match props with
  | [] => [(k, v)]
  | (k', v') :: props' =>
      if bool_decide (k' = k) then (k, v) :: props'
      else (k', v') :: set_prop k v props'
  end.

(** [v.k] for a value [v] that is neither [undefined] nor [null], and a
    name [k] that no prototype defines (all the names [scrape.js] reads
    are such): the own property of an object, [undefined] otherwise. *)
Definition get (v : value) (k : jstring) : value :=
  match v with
  | JObj props => default JUndefined (lookup_prop k props)
  | _ => JUndefined
  end.

(** [v?.k]. *)
Definition opt_get (v : value) (k : jstring) : value :=
  if is_nullish v then JUndefined else get v k.

(** [String(v)].  A number prints by Number::toString, an array by
    [join(",")] (where [undefined] and [null] print as nothing), an
    object by [Object.prototype.toString]; an object whose own
    [toString] property hides that method has no primitive value, and
    [String] throws. *)
Fixpoint to_string (v : value) : result jstring :=
  match v with
  | JUndefined => Ok (lit "undefined")
  | JNull => Ok (lit "null")
  | JBool true => Ok (lit "true")
  | JBool false => Ok (lit "false")
  | JNum x => Ok (Number_toString x)
  | JStr s => Ok s
  | JArr elems =>
      (fix join (first : bool) (l : list value) : result jstring :=
         match l with
         | [] => Ok []
         | e :: l' =>
             match (if is_nullish e then Ok [] else to_string e) with
             | Ok s =>
                 match join false l' with
                 | Ok t => Ok ((if first then [] else [44]) ++ s ++ t)
                 | TypeError => TypeError
                 end
             | TypeError => TypeError
             end
         end) true elems
  | JObj props =>
      match lookup_prop (lit "toString") props with
      | Some _ => TypeError
      | None => Ok (lit "[object Object]")
      end
  end.

End JSValue.
Import JSValue.

(** ** [JSON.parse] *)

Module JSON.

(** JSON white space: tab, line feed, carriage return, space. *)
Definition is_ws (c : N) : bool :=
  (c =? 9) || (c =? 10) || (c =? 13) || (c =? 32).

Fixpoint skip_ws (s : jstring) : jstring :=
  match s with
  | c :: s' => if is_ws c then skip_ws s' else s
  | [] => []
  end.

Definition hex_val (c : N) : option N :=
  if is_digit c then Some (c - 48)
  else if (97 <=? c) && (c <=? 102) then Some (c - 87)
  else if (65 <=? c) && (c <=? 70) then Some (c - 55)
  else None.

Definition hex4 (a b c d : N) : option N :=
  match hex_val a, hex_val b, hex_val c, hex_val d with
  | Some x, Some y, Some z, Some w => Some (((x * 16 + y) * 16 + z) * 16 + w)
  | _, _, _, _ => None
  end.

(** The characters of a string after its opening quote, up to the
    closing one; [acc] holds what was read, last first. *)
Fixpoint parse_chars (s : jstring) (acc : jstring)
  : option (jstring * jstring) :=
  match s with
  | [] => None
  | c :: r =>
      if c =? 34 then Some (rev acc, r)
      else if c =? 92 then
        match r with
        | [] => None
        | e :: r' =>
            if e =? 34 then parse_chars r' (34 :: acc)
            else if e =? 92 then parse_chars r' (92 :: acc)
            else if e =? 47 then parse_chars r' (47 :: acc)
            else if e =? 98 then parse_chars r' (8 :: acc)
            else if e =? 102 then parse_chars r' (12 :: acc)
            else if e =? 110 then parse_chars r' (10 :: acc)
            else if e =? 114 then parse_chars r' (13 :: acc)
            else if e =? 116 then parse_chars r' (9 :: acc)
            else if e =? 117 then
              match r' with
              | h1 :: h2 :: h3 :: h4 :: r'' =>
                  match hex4 h1 h2 h3 h4 with
                  | Some u => parse_chars r'' (u :: acc)
                  | None => None
                  end
              | _ => None
              end
            else None
        end
      else if c <? 32 then None
      else parse_chars r (c :: acc)
  end.

(** A JSON number, from its first character (a digit or the minus
    sign): no leading zero, a digit on each side of the point. *)
Definition parse_number (s : jstring) : option (float * jstring) :=
  let '(neg, u) :=
    match s with
    | c :: r => if c =? 45 then (true, r) else (false, s)
    | [] => (false, s)
    end in
  let '(ip, r1) := span_digits u in
  let int_ok :=
    match ip with
    | [] => false
    | d :: [] => true
    | d :: _ => negb (d =? 48)
    end in
  if negb int_ok then None
  else
    let frac :=
      match r1 with
      | c :: r2 =>
          if c =? 46 then
            let '(fp, r3) := span_digits r2 in
            match fp with
            | [] => None
            | _ => Some (fp, r3)
            end
          else Some ([], r1)
      | [] => Some ([], r1)
      end in
    match frac with
    | None => None
    | Some (fp, r3) =>
        let '(e, r4) := parse_exponent r3 in
        Some (round_dec neg (digits_val (ip ++ fp))
                (e - Z.of_nat (length fp)), r4)
    end.

Definition expect (p : jstring) (v : value) (s : jstring)
  : option (value * jstring) :=
  if starts_with p s then Some (v, drop (length p) s) else None.

(** A value, the elements of an array after its opening bracket or a
    comma, and the members of an object after its opening brace or a
    comma.  Each call spends one unit of [fuel]. *)
Fixpoint parse_value (fuel : nat) (s : jstring) {struct fuel}
  : option (value * jstring) :=
  match fuel with
  | O => None
  | S fuel' =>
      match skip_ws s with
      | [] => None
      | c :: r =>
          if c =? 123 then
            match skip_ws r with
            | c' :: r' =>
                if c' =? 125 then Some (JObj [], r')
                else
                  match parse_members fuel' (c' :: r') [] with
                  | Some (props, r'') => Some (JObj props, r'')
                  | None => None
                  end
            | [] => None
            end
          else if c =? 91 then
            match skip_ws r with
            | c' :: r' =>
                if c' =? 93 then Some (JArr [], r')
                else
                  match parse_elements fuel' (c' :: r') with
                  | Some (elems, r'') => Some (JArr elems, r'')
                  | None => None
                  end
            | [] => None
            end
          else if c =? 34 then
            match parse_chars r [] with
            | Some (str, r') => Some (JStr str, r')
            | None => None
            end
          else if c =? 116 then expect (lit "true") (JBool true) (c :: r)
          else if c =? 102 then expect (lit "false") (JBool false) (c :: r)
          else if c =? 110 then expect (lit "null") JNull (c :: r)
          else
            match parse_number (c :: r) with
            | Some (x, r') => Some (JNum x, r')
            | None => None
            end
      end
  end
with parse_elements (fuel : nat) (s : jstring) {struct fuel}
  : option (list value * jstring) :=
  match fuel with
  | O => None
  | S fuel' =>
      match parse_value fuel' s with
      | None => None
      | Some (v, r) =>
          match skip_ws r with
          | c :: r' =>
              if c =? 93 then Some ([v], r')
              else if c =? 44 then
                match parse_elements fuel' r' with
                | Some (vs, r'') => Some (v :: vs, r'')
                | None => None
                end
              else None
          | [] => None
          end
      end
  end
with parse_members (fuel : nat) (s : jstring)
       (props : list (jstring * value)) {struct fuel}
  : option (list (jstring * value) * jstring) :=
  match fuel with
  | O => None
  | S fuel' =>
      match skip_ws s with
      | c :: r =>
          if c =? 34 then
            match parse_chars r [] with
            | None => None
            | Some (k, r1) =>
                match skip_ws r1 with
                | c1 :: r2 =>
                    if c1 =? 58 then
                      match parse_value fuel' r2 with
                      | None => None
                      | Some (v, r3) =>
                          let props' := set_prop k v props in
                          match skip_ws r3 with
                          | c3 :: r4 =>
                              if c3 =? 125 then Some (props', r4)
                              else if c3 =? 44
                                   then parse_members fuel' r4 props'
                              else None
                          | [] => None
                          end
                      end
                    else None
                | [] => None
                end
            end
          else None
      | [] => None
      end
  end.

(** [JSON.parse(text)]: [None] for the [SyntaxError].  Every call of the
    three parsers above reads a character or comes straight after a call
    that did, so twice the length of [text] and two is fuel enough. *)
Definition parse (text : jstring) : option value :=
  match parse_value (2 * length text + 2) text with
  | Some (v, r) => match skip_ws r with [] => Some v | _ => None end
  | None => None
  end.

End JSON.

(** ** The regular expressions of [scrape.js] *)

Module Regex.

(** [x.replace(/,/g, "")]. *)
Definition strip_commas (s : jstring) : jstring :=
  List.filter (fun c => negb (c =? 44)) s.

(** [x.replace(/ | /g, "")]. *)
Definition strip_line_separators (s : jstring) : jstring :=
  List.filter (fun c => negb ((c =? 8232) || (c =? 8233))) s.

Definition is_closer (c : N) : bool := (c =? 93) || (c =? 125).

(** After a comma: [\s*] then one of [\]}].  The closer, and how many
    code units the white space and the closer take. *)
Fixpoint closer_after_space (s : jstring) : option (N * nat) :=
  match s with
  | [] => None
  | c :: r =>
      if is_space c then
        match closer_after_space r with
        | Some (b, n) => Some (b, S n)
        | None => None
        end
      else if is_closer c then Some (c, 1%nat)
      else None
  end.

(** [x.replace(/,\s*([\]}])/g, "$1")]: [skip] counts the code units of
    a match still to pass over. *)
Fixpoint strip_trailing_commas_from (s : jstring) (skip : nat) : jstring :=
  match s with
  | [] => []
  | c :: r =>
      match skip with
      | S k => strip_trailing_commas_from r k
      | O =>
          if c =? 44 then
            match closer_after_space r with
            | Some (b, n) => b :: strip_trailing_commas_from r n
            | None => c :: strip_trailing_commas_from r 0
            end
          else c :: strip_trailing_commas_from r 0
      end
  end.

Definition strip_trailing_commas (s : jstring) : jstring :=
  strip_trailing_commas_from s 0.

(** [/(\d+)\s*bids?/] tried at the head of [s]: the first group.  [\d+]
    and [\s*] are greedy, and giving back a digit or a space cannot help:
    the next unit has to be the [b] of [bid]. *)
Definition bids_at (s : jstring) : option jstring :=
  let '(d, r) := span_digits s in
  match d with
  | [] => None
  | _ => if starts_with (lit "bid") (trim_start r) then Some d else None
  end.

(** [s.match(/(\d+)\s*bids?/)]: the first group of the leftmost match,
    [None] for [null]. *)
Fixpoint match_bids (s : jstring) : option jstring :=
  match bids_at s with
  | Some d => Some d
  | None => match s with
            | [] => None
            | _ :: r => match_bids r
            end
  end.

End Regex.
Import Regex.

(** ** [scrape.js] *)

Definition TARGET_LOTS : list jstring :=
  List.map lit
    ["5"; "18"; "20"; "28"; "45"; "69"; "75"; "79"; "86"; "87"; "105";
     "106"; "117"; "118"; "140"; "141"; "144"; "145"; "146"; "158"]%string.

Definition toNumber (x : value) : option float :=
  match x with
  | JUndefined | JNull => None
  | JNum n => if isFinite n then Some n else None
  | JStr s =>
      let n := parseFloat (strip_commas s) in
      if isFinite n then Some n else None
  | _ => None
  end.

(** *** [extractLotObjects] *)

Definition marker : jstring := q "'lot_number'".

(** [while (start > 0 && html[start] !== "{") start--]. *)
Fixpoint scan_left (html : jstring) (start : nat) : nat :=
  match start with
  | O => O
  | S p =>
      match html !! start with
      | Some 123 => start
      | _ => scan_left html p
      end
  end.

(** The [for] loop over [end], on what is left of [html] from [end] on:
    where it stops, and whether it stopped at the brace that brings
    [depth] back to zero ([break]) or at [html.length]. *)
Fixpoint match_forward (rest : jstring) (end_ : nat) (depth : Z)
  : nat * bool :=
  match rest with
  | [] => (end_, false)
  | ch :: rest' =>
      if ch =? 123 then match_forward rest' (S end_) (depth + 1)
      else if ch =? 125 then
        if (depth - 1 =? 0)%Z then (end_, true)
        else match_forward rest' (S end_) (depth - 1)
      else match_forward rest' (S end_) depth
  end.

(** The body of the [try]: [None] when [JSON.parse] throws. *)
Definition parse_candidate (objText : jstring) : option value :=
  JSON.parse (strip_trailing_commas (strip_line_separators objText)).

(** One turn of the [while (true)] loop from the state [(idx, results)]:
    [inr] at [break], [inl] the next state otherwise. *)
Definition extract_step (html : jstring) (st : nat * list value)
  : (nat * list value) + list value :=
  let '(idx, results) := st in
  match indexOf html marker idx with
  | None => inr results
  | Some keyIdx =>
      let start := scan_left html keyIdx in
      match html !! start with
      | Some 123 =>
          let '(end_, found) := match_forward (drop start html) start 0 in
          let results' :=
            if found then
              match parse_candidate (slice html start (end_ + 1)) with
              | Some obj => results ++ [obj]
              | None => results
              end
            else results in
          inl ((end_ + 1)%nat, results')
      | _ => inl ((keyIdx + 12)%nat, results)
      end
  end.

(** The loop, for at most [fuel] turns: [None] when it has not reached
    [break] by then. *)
Fixpoint extract_loop (fuel : nat) (html : jstring) (st : nat * list value)
  : option (list value) :=
  match fuel with
  | O => None
  | S fuel' =>
      match extract_step html st with
      | inr results => Some results
      | inl st' => extract_loop fuel' html st'
      end
  end.

Definition extractLotObjects (fuel : nat) (html : jstring)
  : option (list value) :=
  extract_loop fuel html (O, []).

(** *** [pickBidForLot] *)

Record bids : Type := {
  b_current_bid : option float;
  b_next_bid : option float;
  b_currency_text : value;
  b_bid_count : float;
  b_has_no_bids : bool
}.

(** [bidCount]: a truthy [bid_count_txt] that is no string has no
    [match] method, and the call throws. *)
Definition bid_count_of (bidCountTxt : value) : result float :=
  if truthy bidCountTxt then
    match bidCountTxt with
    | JStr s =>
        match match_bids s with
        | Some d => Ok (parseInt10 d)
        | None => Ok zero
        end
    | _ => TypeError
    end
  else Ok zero.

Definition pickBidForLot (lotObj : value) : result bids :=
  let currentBid := toNumber (opt_get lotObj (lit "current_bid")) in
  let nextBid :=
    toNumber (opt_get (opt_get lotObj (lit "online_only_dynamic_lot_data"))
                (lit "next_bid")) in
  let currencyText :=
    js_or (opt_get lotObj (lit "current_bid_txt"))
      (js_or (opt_get (opt_get lotObj (lit "online_only_dynamic_lot_data"))
                (lit "next_bid_text"))
         (js_or (opt_get (opt_get lotObj (lit "online_only_static_lot_data"))
                   (lit "header_price"))
            JNull)) in
  bidCount ← bid_count_of (opt_get lotObj (lit "bid_count_txt"));
  let hasNoBids :=
    is_true (opt_get lotObj (lit "has_no_bids")) || (bidCount =? 0)%float in
  mret {| b_current_bid := if hasNoBids then Some zero else currentBid;
          b_next_bid := nextBid;
          b_currency_text := currencyText;
          b_bid_count := bidCount;
          b_has_no_bids := hasNoBids |}.

(** *** [main], from [const allLots = extractLotObjects(html)] on *)

(** An element of [entries]; [None] is [null]. *)
Record entry : Type := {
  e_lot : float;
  e_current_bid : option float;
  e_next_bid : option float;
  e_shown_amount : option float;
  e_status : value;
  e_estimate : value;
  e_bid_text : value;
  e_bid_count : float;
  e_has_no_bids : bool
}.

(** What is written to [out/data.json], but for [ts], [auction_url] and
    [auction_closing]. *)
Record report : Type := {
  lots_requested : list float;
  total : float;
  lots_with_bids : nat;
  lots_without_bids : nat;
  entries : list entry
}.

(** [String(lot?.lot_number || "").trim()]. *)
Definition lot_key (lot : value) : result jstring :=
  s ← to_string (js_or (opt_get lot (lit "lot_number")) (JStr []));
  mret (trim s).

(** The deduplication loop: [lotMap] after the lots [allLots], starting
    from [lotMap]. *)
Fixpoint build_lotMap (allLots : list value) (lotMap : gmap jstring value)
  : result (gmap jstring value) :=
  match allLots with
  | [] => mret lotMap
  | lot :: rest =>
      lotNum ← lot_key lot;
      build_lotMap rest
        (match lotMap !! lotNum with
         | Some _ => lotMap
         | None => <[lotNum := lot]> lotMap
         end)
  end.

(** The placeholder of a lot that was not found. *)
Definition placeholder (n : float) : entry :=
  {| e_lot := n;
     e_current_bid := None;
     e_next_bid := None;
     e_shown_amount := None;
     e_status := JNull;
     e_estimate := JNull;
     e_bid_text := JNull;
     e_bid_count := zero;
     e_has_no_bids := true |}.

(** The entry of a lot that was found. *)
Definition found_entry (lotNum : jstring) (lot : value) : result entry :=
  bids ← pickBidForLot lot;
  let chosen :=
    match b_current_bid bids with
    | Some x => Some x
    | None => b_next_bid bids
    end in
  mret {| e_lot := Number_of_string lotNum;
          e_current_bid := b_current_bid bids;
          e_next_bid := b_next_bid bids;
          e_shown_amount := chosen;
          e_status :=
            js_or (opt_get (opt_get lot (lit "online_only_dynamic_lot_data"))
                     (lit "item_status")) JNull;
          e_estimate :=
            js_or (opt_get (opt_get lot (lit "online_only_static_lot_data"))
                     (lit "header_price")) JNull;
          e_bid_text := js_or (b_currency_text bids) JNull;
          e_bid_count := b_bid_count bids;
          e_has_no_bids := b_has_no_bids bids |}.

(** The body of the first loop over [TARGET_LOTS]: the entry pushed for
    [lotNum]. *)
Definition entry_for (lotMap : gmap jstring value) (lotNum : jstring)
  : result entry :=
  match lotMap !! lotNum with
  | Some lot =>
      if truthy lot then found_entry lotNum lot
      else mret (placeholder (Number_of_string lotNum))
  | None => mret (placeholder (Number_of_string lotNum))
  end.

(** The first loop over the targets. *)
Fixpoint build_entries (lotMap : gmap jstring value) (targets : list jstring)
  (entries : list entry) : result (list entry) :=
  match targets with
  | [] => mret entries
  | lotNum :: rest =>
      e ← entry_for lotMap lotNum;
      build_entries lotMap rest (entries ++ [e])
  end.

(** The second loop: a placeholder for each target no entry stands for. *)
Fixpoint ensure_entries (targets : list jstring) (entries : list entry)
  : list entry :=
  match targets with
  | [] => entries
  | t :: rest =>
      let n := Number_of_string t in
      ensure_entries rest
        (if existsb (fun e => (e_lot e =? n)%float) entries
         then entries
         else entries ++ [placeholder n])
  end.

(** [Array.prototype.sort] with a comparator: the stable sort, where
    [x] stays ahead of [y] unless [cmp x y > 0] (a [NaN] from the
    comparator counts as zero).  ECMAScript leaves the order open when the
    comparator is not consistent; for a consistent one it is this. *)
Section Sort.
Context {A : Type} (cmp : A -> A -> float).

Fixpoint sort_insert (x : A) (l : list A) : list A :=
  match l with
  | [] => [x]
  | y :: l' =>
      if (0 <? cmp x y)%float then y :: sort_insert x l'
      else x :: y :: l'
  end.

Fixpoint sort (l : list A) : list A :=
  match l with
  | [] => []
  | x :: l' => sort_insert x (sort l')
  end.

(** [x] does not come after [y]: the comparator is not positive. *)
Definition not_after (x y : A) : Prop := (0 <? cmp x y)%float = false.

(** A consistent comparator on the elements of [l]: any two compare
    one way or the other, and not coming after is transitive. *)
Definition consistent_on (l : list A) : Prop :=
  (forall x y, In x l -> In y l -> not_after x y \/ not_after y x)
  /\ (forall x y z, In x l -> In y l -> In z l ->
        not_after x y -> not_after y z -> not_after x z).
End Sort.

(** [entries.reduce(..., 0)]. *)
Definition total_of (entries : list entry) : float :=
  fold_left
    (fun s e =>
       if e_has_no_bids e then s
       else (s + match e_shown_amount e with Some x => x | None => zero end)%float)
    entries zero.

(** [main] once [allLots] is there, for the targets [targets]. *)
Definition build_report (targets : list jstring) (allLots : list value)
  : result report :=
  lotMap ← build_lotMap allLots ∅;
  es ← build_entries lotMap targets [];
  let es := ensure_entries targets es in
  let es := sort (fun a b => (e_lot a - e_lot b)%float) es in
  mret {| lots_requested :=
            sort (fun a b => (a - b)%float)
              (List.map Number_of_string targets);
          total := total_of es;
          lots_with_bids :=
            length (List.filter (fun e => negb (e_has_no_bids e)) es);
          lots_without_bids :=
            length (List.filter (fun e => e_has_no_bids e) es);
          entries := es |}.

(** [main] once [html] is there: [None] when [extractLotObjects] has not
    returned within [fuel] turns of its loop, [Some TypeError] when [main]
    throws (the process exits with status 1 and nothing is written),
    [Some (Ok r)] when the report [r] is written. *)
Definition main_for (targets : list jstring) (fuel : nat) (html : jstring)
  : option (result report) :=
  match extractLotObjects fuel html with
  | None => None
  | Some allLots => Some (build_report targets allLots)
  end.

Definition main : nat -> jstring -> option (result report) :=
  main_for TARGET_LOTS.

(** * The vocabulary of the properties *)

(** What an entry adds to the total when it counts. *)
Definition amount (e : entry) : float :=
  match e_shown_amount e with Some x => x | None => zero end.

(** The sum of the amounts, from the left, as [reduce] adds them. *)
Definition sum_amounts (es : list entry) : float :=
  fold_left (fun s e => (s + amount e)%float) es zero.

Definition with_bids (es : list entry) : list entry :=
  List.filter (fun e => negb (e_has_no_bids e)) es.

(** The lot [lot] carries the identifier [k]. *)
Definition has_key (k : jstring) (lot : value) : bool :=
  match lot_key lot with
  | Ok k' => bool_decide (k' = k)
  | TypeError => false
  end.

(** The lot [lotNum] is on the page, as the record [lot], and [e] is the
    entry the first loop pushes for it. *)
Definition entry_of_found (lotMap : gmap jstring value) (lotNum : jstring)
  (lot : value) (e : entry) : Prop :=
  lotMap !! lotNum = Some lot /\ truthy lot = true
  /\ entry_for lotMap lotNum = Ok e.

(** [toNumber] is [null] exactly for a value that is absent ([undefined]
    or [null]), a number that is not finite, a string whose [parseFloat]
    is not finite, or a value of another type. *)
Definition not_numeric (v : value) : Prop :=
  match v with
  | JUndefined | JNull => True
  | JNum n => isFinite n = false
  | JStr s => isFinite (parseFloat (strip_commas s)) = false
  | JBool _ | JArr _ | JObj _ => True
  end.

(** The bid count that a record's [bid_count_txt] spells, read off the
    record alone: [parseInt] of the digits of the leftmost digits-then-bid
    in a string, and zero when the field is no string or holds no such
    text. *)
Definition bid_count_of_text (bidCountTxt : value) : float :=
  match bidCountTxt with
  | JStr s =>
      match match_bids s with
      | Some d => parseInt10 d
      | None => zero
      end
  | _ => zero
  end.

(** The comparator of both sorts of [main], on lot numbers. *)
Definition by_lot (a b : float) : float := (a - b)%float.

(** The lot numbers of the targets are numbers: none is [NaN]. *)
Definition numeric_lots (targets : list jstring) : Prop :=
  Forall (fun t => is_nan (Number_of_string t) = false) targets.

(** The comparator is consistent on a list of numbers, by running it. *)
Definition consistent_onb (l : list float) : bool :=
  forallb (fun x => forallb (fun y =>
    negb (0 <? by_lot x y)%float || negb (0 <? by_lot y x)%float) l) l
  && forallb (fun x => forallb (fun y => forallb (fun z =>
       implb (negb (0 <? by_lot x y)%float && negb (0 <? by_lot y z)%float)
         (negb (0 <? by_lot x z)%float)) l) l) l.

(** The lots that [scrape.js] asks for, as numbers. *)
Definition target_numbers : list float :=
  [5; 18; 20; 28; 45; 69; 75; 79; 86; 87; 105; 106; 117; 118; 140; 141;
   144; 145; 146; 158]%float.

(** Scanning from [idx], the next candidate object is [html[start..end_]]:
    a marker is found, the nearest brace on its left is at [start], and the
    forward scan from there is back at depth zero at [end_]. *)
Definition candidate_at (html : jstring) (idx start end_ : nat) : Prop :=
  exists keyIdx,
    indexOf html marker idx = Some keyIdx
    /\ scan_left html keyIdx = start
    /\ html !! start = Some 123
    /\ match_forward (drop start html) start 0 = (end_, true).

(** The candidate [c] on its own: a page that is [c] has its first marker
    inside the braces that open [c], and these close at the last code unit
    of [c]. *)
Definition whole_candidate (c : jstring) : Prop :=
  exists k,
    indexOf c marker 0 = Some k
    /\ c !! 0%nat = Some 123
    /\ scan_left c k = 0%nat
    /\ match_forward c 0 0 = ((length c - 1)%nat, true).

(** Text without a double quote: no marker starts in it. *)
Definition no_quote (s : jstring) : Prop :=
  forallb (fun c => negb (c =? 34)) s = true.

(** ** Sample pages and records

    In the texts below an apostrophe stands for the double quote of the
    page (see [q]). *)

(** A record whose marker comes after a nested object. *)
Definition nested_before_marker : jstring :=
  q "{'a':{'b':1},'lot_number':'2'}".

(** A record, then the marker once more outside of any object. *)
Definition stray_marker : jstring :=
  q "{'lot_number':1} data-key='lot_number'".

(** The page of the specification's example. *)
Definition lot5_html : jstring :=
  q "{'lot_number':'5','current_bid':'1400.00','bid_count_txt':' - 3 bids'}".

(** The record it holds, and the entry of lot 5. *)
Definition lot5_record : value :=
  JObj [(lit "lot_number", JStr (lit "5"));
        (lit "current_bid", JStr (lit "1400.00"));
        (lit "bid_count_txt", JStr (lit " - 3 bids"))].

Definition lot5_entry : entry :=
  {| e_lot := 5;
     e_current_bid := Some 1400%float;
     e_next_bid := None;
     e_shown_amount := Some 1400%float;
     e_status := JNull;
     e_estimate := JNull;
     e_bid_text := JNull;
     e_bid_count := 3;
     e_has_no_bids := false |}.

(** Lot 18 as a page may give it: a current bid with a thousands
    separator, and no bid count. *)
Definition lot18_record : value :=
  JObj [(lit "lot_number", JStr (lit "18"));
        (lit "current_bid", JStr (lit "2,500.50"))].

(** Lot 5 once more, further down the page, with another bid. *)
Definition lot5_again : value :=
  JObj [(lit "lot_number", JStr (lit " 5 "));
        (lit "current_bid", JStr (lit "9999"));
        (lit "bid_count_txt", JStr (lit "7 bids"))].

(** A lot that has no [current_bid] and no bid. *)
Definition lot20_record : value :=
  JObj [(lit "lot_number", JNum 20)].

(** What a page with the four records gives, the map and the report that
    [main] builds from them, and the entries of lots 18 and 20. *)
Definition sample_lots : list value :=
  [lot5_record; lot18_record; lot5_again; lot20_record].

Definition sample_map : gmap jstring value :=
  <[lit "20" := lot20_record]>
    (<[lit "18" := lot18_record]> (<[lit "5" := lot5_record]> ∅)).

Definition empty_report : report :=
  {| lots_requested := []; total := zero; lots_with_bids := 0;
     lots_without_bids := 0; entries := [] |}.

Definition sample_report : report :=
  Eval vm_compute in
    match build_report TARGET_LOTS sample_lots with
    | Ok r => r
    | TypeError => empty_report
    end.

(** Lot 45 with a current bid and a bid count text of no bid, the map
    that holds it alone, and its entry. *)
Definition lot45_record : value :=
  JObj [(lit "lot_number", JStr (lit "45"));
        (lit "current_bid", JStr (lit "900.00"));
        (lit "bid_count_txt", JStr (lit " - 0 bids"))].

Definition lot45_map : gmap jstring value := <[lit "45" := lot45_record]> ∅.

Definition lot45_entry : entry :=
  {| e_lot := 45;
     e_current_bid := Some zero;
     e_next_bid := None;
     e_shown_amount := Some zero;
     e_status := JNull;
     e_estimate := JNull;
     e_bid_text := JNull;
     e_bid_count := zero;
     e_has_no_bids := true |}.

Definition lot18_entry : entry :=
  {| e_lot := 18;
     e_current_bid := Some zero;
     e_next_bid := None;
     e_shown_amount := Some zero;
     e_status := JNull;
     e_estimate := JNull;
     e_bid_text := JNull;
     e_bid_count := zero;
     e_has_no_bids := true |}.

Definition lot20_entry : entry :=
  {| e_lot := 20;
     e_current_bid := Some zero;
     e_next_bid := None;
     e_shown_amount := Some zero;
     e_status := JNull;
     e_estimate := JNull;
     e_bid_text := JNull;
     e_bid_count := zero;
     e_has_no_bids := true |}.

(** A page that carries the four records, in markup. *)
Definition sample_html : jstring :=
  q "<script>var a = {'lot_number':'5','current_bid':'1400.00','bid_count_txt':' - 3 bids'};"
  ++ q " var b = [{'lot_number':'18','current_bid':'2,500.50'},"
  ++ q " {'lot_number':' 5 ','current_bid':'9999','bid_count_txt':'7 bids'},"
  ++ q " {'lot_number':20, }];</script>".

(** A page where a candidate fails to parse and a valid record follows. *)
Definition failed_candidate : jstring := q "{'lot_number':x}".

Definition valid_candidate : jstring := q "{'lot_number':'2'}".

Definition recovering_html : jstring :=
  lit "<script>a = " ++ failed_candidate ++ lit "; b = " ++ valid_candidate
  ++ lit ";</script>".

(** * The rest of [scrape.js] *)

(** ** [extractAuctionClosingTime] *)

(** The longest prefix without a double quote, and the rest. *)
Fixpoint span_not_quote (s : jstring) : jstring * jstring :=
  match s with
  | c :: s' =>
      if c =? 34 then ([], s)
      else let '(v, r) := span_not_quote s' in (c :: v, r)
  | [] => ([], [])
  end.

(** White space, a double quote, one code unit or more that is no double
    quote, a double quote, at the head of [s]: the group in between.  Both
    repetitions are greedy, and giving back a code unit cannot help: what
    follows has to be a double quote. *)
Definition quoted_value (s : jstring) : option jstring :=
  match trim_start s with
  | c :: r =>
      if c =? 34 then
        match span_not_quote r with
        | ((_ :: _) as v, c' :: _) => if c' =? 34 then Some v else None
        | _ => None
        end
      else None
  | [] => None
  end.

(** A pattern tried at the head of [s]: its literal head [key], then the
    above. *)
Definition key_value_at (key s : jstring) : option jstring :=
  if starts_with key s then quoted_value (drop (length key) s) else None.

(** [s.match(pattern)]: the group of the leftmost match. *)
Fixpoint match_key_value (key s : jstring) : option jstring :=
  match key_value_at key s with
  | Some v => Some v
  | None => match s with
            | [] => None
            | _ :: r => match_key_value key r
            end
  end.

(** The literal heads of the four patterns, in the order of the array. *)
Definition closing_patterns : list jstring :=
  [q "'end_date':"; q "'auction_end_time':"; q "'closing_time':";
   q "'end_time':"].

Record closing : Type := {
  closing_time : jstring;
  closing_timestamp : jstring;
  time_remaining_ms : float
}.

(** The built-in [Date] is taken as it comes: [Date_parse s] is
    [new Date(s).getTime()] ([NaN] for an invalid date), [Date_toISOString]
    prints a valid time value, [Date_now] is the clock when the function
    returns.  [toISOString] throws on an invalid date only, which the test
    on [isNaN] excludes, so the [catch] is never entered. *)
Section Closing.
Variable Date_parse : jstring -> float.
Variable Date_toISOString : float -> jstring.
Variable Date_now : float.

(** The [for] loop over what is left of [patterns]. *)
Fixpoint closing_from (html : jstring) (patterns : list jstring)
  : option closing :=
  match patterns with
  | [] => None
  | pattern :: rest =>
      match match_key_value pattern html with
      | Some m1 =>
          let t := Date_parse m1 in
          if is_nan t then closing_from html rest
          else Some {| closing_time := m1;
                       closing_timestamp := Date_toISOString t;
                       time_remaining_ms := (t - Date_now)%float |}
      | None => closing_from html rest
      end
  end.

Definition extractAuctionClosingTime (html : jstring) : option closing :=
  closing_from html closing_patterns.
End Closing.

(** ** More vocabulary *)

(** A plain object: neither an array nor [null]. *)
Definition is_object (v : value) : bool :=
  match v with JObj _ => true | _ => false end.

(** The marker occurs at [keyIdx]. *)
Definition marker_at (html : jstring) (keyIdx : nat) : bool :=
  starts_with marker (drop keyIdx html).

(** Where the backward scan from the marker at [keyIdx] finds a brace
    that closes, it closes at or after the marker. *)
Definition closes_after (html : jstring) (keyIdx : nat) : bool :=
  let start := scan_left html keyIdx in
  match html !! start with
  | Some c =>
      if c =? 123 then
        match match_forward (drop start html) start 0 with
        | (end_, true) => (keyIdx <=? end_)%nat
        | (_, false) => true
        end
      else true
  | None => true
  end.

(** Every candidate of the page holds its marker. *)
Definition candidates_hold_marker (html : jstring) : Prop :=
  forall keyIdx, marker_at html keyIdx = true -> closes_after html keyIdx = true.

Definition candidates_hold_markerb (html : jstring) : bool :=
  forallb (fun keyIdx => implb (marker_at html keyIdx) (closes_after html keyIdx))
    (seq 0 (length html)).

(** A page made of candidates, each after a separator, and a tail. *)
Fixpoint page_of (parts : list (jstring * jstring)) (post : jstring)
  : jstring :=
  match parts with
  | [] => post
  | (sep, c) :: parts' => sep ++ c ++ page_of parts' post
  end.

(** What the candidates of such a page parse to, those that parse. *)
Fixpoint parsed_parts (parts : list (jstring * jstring)) : list value :=
  match parts with
  | [] => []
  | (_, c) :: parts' =>
      match parse_candidate c with
      | Some v => v :: parsed_parts parts'
      | None => parsed_parts parts'
      end
  end.

(** A number of the report: [null] or finite. *)
Definition null_or_finite (x : option float) : Prop :=
  match x with Some y => is_finite y = true | None => True end.

(** A text of the report: [null] or truthy. *)
Definition null_or_truthy (v : value) : Prop := v = JNull \/ truthy v = true.

(** What holds of every entry that [main] builds. *)
Definition entry_ok (e : entry) : Prop :=
  null_or_finite (e_current_bid e)
  /\ null_or_finite (e_next_bid e)
  /\ e_shown_amount e
     = match e_current_bid e with
       | Some x => Some x
       | None => e_next_bid e
       end
  /\ null_or_truthy (e_status e)
  /\ null_or_truthy (e_estimate e)
  /\ null_or_truthy (e_bid_text e)
  /\ (e_has_no_bids e = true ->
      e_current_bid e = Some zero \/ e_current_bid e = None)
  /\ (e_has_no_bids e = false -> (e_bid_count e =? 0)%float = false).

(** A [bid_count_txt] on which [.match] is no function. *)
Definition bad_bid_count_txt (v : value) : bool :=
  truthy v && match v with JStr _ => false | _ => true end.

(** A record whose [bid_count_txt] is a number: [pickBidForLot] throws on
    it. *)
Definition lot69_record : value :=
  JObj [(lit "lot_number", JStr (lit "69"));
        (lit "bid_count_txt", JNum 3)].

(** A toy [Date]: the time value is the number the text spells, the print
    is that of the number. *)
Definition toy_Date_parse (s : jstring) : float := Number_of_string s.

Definition closing_html : jstring :=
  q "{'end_date': 'soon', 'closing_time':  '1700000000000'}".

(** A page with markers and no brace. *)
Definition markers_only_html : jstring :=
  q "<a data-key='lot_number'>lot 5</a> 'lot_number'".

(** Three candidates in a list; the second does not parse. *)
Definition page_parts : list (jstring * jstring) :=
  [(lit "<ul><li>", lot5_html); (lit "</li><li>", failed_candidate);
   (lit "</li><li>", valid_candidate)].

(** What the toy [Date] makes of [closing_html], at time 0. *)
Definition closing_sample : closing :=
  {| closing_time := lit "1700000000000";
     closing_timestamp := lit "1700000000000";
     time_remaining_ms := 1700000000000 |}.

(** * Properties *)

(** ** The models of the built-ins, on known values *)

Example parseFloat_examples :
  List.map (fun s => parseFloat (lit s))
    ["1400.00"; " 12abc"; "-0"; ".5"; "5."; "1e+2x"; "-Infinityx"]%string
  = [1400; 12; -0; 0.5; 5; 100; neg_infinity]%float.
Proof. vm_compute. reflexivity. Qed.

Example parseFloat_nan :
  forallb (fun s => is_nan (parseFloat (lit s))) ["abc"; "."; ""; "-.e2"]%string
  = true.
Proof. vm_compute. reflexivity. Qed.

Example Number_of_string_examples :
  List.map (fun s => Number_of_string (lit s))
    ["5"; " 158 "; ""; "0x1F"; "0b101"; "1e3"; "Infinity"]%string
  = [5; 158; 0; 31; 5; 1000; infinity]%float.
Proof. vm_compute. reflexivity. Qed.

Example Number_of_string_nan :
  forallb (fun s => is_nan (Number_of_string (lit s)))
    ["12abc"; "0x"; "-0x10"; "1_0"; "five"]%string
  = true.
Proof. vm_compute. reflexivity. Qed.

Example round_dec_examples :
  [round_dec false 1 (-1); round_dec false 1 309; round_dec false 24 (-325);
   round_dec false 25 (-325); round_dec false 9007199254740993 0]
  = [0x1.999999999999ap-4; infinity; 0; 0x0.0000000000001p-1022;
     9007199254740992]%float.
Proof. vm_compute. reflexivity. Qed.

Example Number_toString_examples :
  List.map Number_toString
    [1400; 0.5; 0x1.999999999999ap-4; 0x1.999999999999ap-4 + 0x1.999999999999ap-3;
     1e21; 123456789012345683968; 0x0.0000000000001p-1022; -0; nan;
     9007199254740992]%float
  = List.map lit
      ["1400"; "0.5"; "0.1"; "0.30000000000000004"; "1e+21";
       "123456789012345680000"; "5e-324"; "0"; "NaN";
       "9007199254740992"]%string.
Proof. vm_compute. reflexivity. Qed.

Example JSON_parse_examples :
  JSON.parse (q "{'a':{'b':[1,2.5e1,true,null,'x']},'a':2, 'c' : [ ] }")
  = Some (JObj [(lit "a", JNum 2); (lit "c", JArr [])])
  /\ List.map (fun s => JSON.parse (q s))
       ["{'a':01}"; "{'a':1,}"; "[1,]"; "{'a':1} x"; "'abc"; "[1 2]"; "1."]%string
     = List.map (fun _ => None) (seq 0 7).
Proof. split; vm_compute; reflexivity. Qed.

Example strip_trailing_commas_examples :
  List.map (fun s => strip_trailing_commas (lit s))
    ["{a:1, }"; "[1,2,  ],x,,]"; ", ,}"; "a,b"]%string
  = List.map lit ["{a:1}"; "[1,2],x,]"; ", }"; "a,b"]%string.
Proof. vm_compute. reflexivity. Qed.

Example match_bids_examples :
  List.map (fun s => match_bids (lit s))
    [" - 3 bids"; " - 0 bids"; "12 34  bids"; "bids"; "1 bid"]%string
  = [Some (lit "3"); Some (lit "0"); Some (lit "34"); None; Some (lit "1")].
Proof. vm_compute. reflexivity. Qed.

(** ** [JSON.parse] has fuel enough *)

Import JSON.

Lemma skip_ws_length (s : jstring) : (length (skip_ws s) <= length s)%nat.
Proof.
  induction s as [|c s IH]; simpl; [lia|].
  destruct (is_ws c); simpl; lia.
Qed.

Lemma span_digits_length (s d r : jstring) :
  span_digits s = (d, r) -> (length d + length r = length s)%nat.
Proof.
  revert d r. induction s as [|c s IH]; intros d r; simpl.
  - intros [= <- <-]. reflexivity.
  - destruct (is_digit c).
    + destruct (span_digits s) as [d' r'] eqn:E. intros [= <- <-].
      simpl. rewrite (IH d' r' eq_refl). reflexivity.
    + intros [= <- <-]. reflexivity.
Qed.

Lemma parse_exponent_length (s r : jstring) (e : Z) :
  parse_exponent s = (e, r) -> (length r <= length s)%nat.
Proof.
  unfold parse_exponent. destruct s as [|c s1]; [intros [= <- <-]; lia|].
  destruct ((c =? 101) || (c =? 69)); [|intros [= <- <-]; lia].
  assert (forall neg s2, (length s2 <= length s1)%nat ->
            (let '(d, r0) := span_digits s2 in
             match d with
             | [] => (0%Z, c :: s1)
             | _ :: _ =>
                 ((if neg : bool then - digits_val d else digits_val d)%Z, r0)
             end) = (e, r) -> (length r <= length (c :: s1))%nat) as Haux.
  { intros neg s2 Hs2. destruct (span_digits s2) as [d r0] eqn:E.
    apply span_digits_length in E.
    destruct d; intros [= <- <-]; simpl in *; lia. }
  destruct s1 as [|c1 r1]; [apply (Haux false); simpl; lia|].
  destruct (N.eq_dec c1 43) as [->|H43]; [apply (Haux false); simpl; lia|].
  destruct (N.eq_dec c1 45) as [->|H45]; [apply (Haux true); simpl; lia|].
  intros H. apply (Haux false (c1 :: r1)); [simpl; lia|].
  destruct c1 as [|p]; [exact H|].
  do 6 (destruct p as [p|p|]; try exact H); congruence.
Qed.

Lemma parse_chars_length (s acc x r : jstring) :
  parse_chars s acc = Some (x, r) -> (length r < length s)%nat.
Proof.
  remember (length s) as n eqn:Hn. revert s acc Hn.
  induction n as [n IH] using lt_wf_ind. intros s acc -> H.
  destruct s as [|c s]; simpl in H; [discriminate|].
  destruct (c =? 34); [injection H as <- <-; simpl; lia|].
  destruct (c =? 92).
  - destruct s as [|e s]; [discriminate|].
    assert (forall a, parse_chars s a = Some (x, r) ->
              (length r < length (c :: e :: s))%nat) as Hrec.
    { intros a Ha. apply (IH (length s)) in Ha; simpl; auto; lia. }
    repeat match type of H with
           | (if ?b then _ else _) = _ => destruct b; [eapply Hrec; eassumption|]
           end.
    destruct (e =? 117); [|discriminate].
    destruct s as [|h1 [|h2 [|h3 [|h4 s]]]]; try discriminate.
    destruct (hex4 h1 h2 h3 h4); [|discriminate].
    apply (IH (length s)) in H; simpl; auto; lia.
  - destruct (c <? 32); [discriminate|].
    apply (IH (length s)) in H; simpl; auto; lia.
Qed.

Lemma number_tail_length (k : Z -> float) (r3 r : jstring) (x : float) :
  (let '(e, r4) := parse_exponent r3 in Some (k e, r4)) = Some (x, r) ->
  (length r <= length r3)%nat.
Proof.
  destruct (parse_exponent r3) as [e r4] eqn:He.
  apply parse_exponent_length in He. intros [= _ <-]. exact He.
Qed.

Lemma number_fraction_length (k : jstring -> Z -> float) (r1 r : jstring)
  (x : float) :
  match
    match r1 with
    | c :: r2 =>
        if c =? 46
        then let '(fp, r3) := span_digits r2 in
             match fp with
             | [] => None
             | _ :: _ => Some (fp, r3)
             end
        else Some ([], r1)
    | [] => Some ([], r1)
    end
  with
  | None => None
  | Some (fp, r3) =>
      let '(e, r4) := parse_exponent r3 in Some (k fp e, r4)
  end = Some (x, r) ->
  (length r <= length r1)%nat.
Proof.
  destruct r1 as [|c r2].
  - apply (number_tail_length (k [])).
  - destruct (c =? 46); [|apply (number_tail_length (k []))].
    destruct (span_digits r2) as [fp r3] eqn:E.
    apply span_digits_length in E.
    destruct fp; [discriminate|].
    intros H. apply number_tail_length in H. simpl in *. lia.
Qed.

Lemma parse_number_length (s r : jstring) (x : float) :
  parse_number s = Some (x, r) -> (length r < length s)%nat.
Proof.
  unfold parse_number. intros H.
  destruct (match s with
            | c :: r0 => if c =? 45 then (true, r0) else (false, s)
            | [] => (false, s)
            end) as [neg u] eqn:Hnu.
  assert (length u <= length s)%nat as Hu.
  { destruct s as [|c r0]; [injection Hnu as <- <-; lia|].
    destruct (c =? 45); injection Hnu as <- <-; simpl; lia. }
  destruct (span_digits u) as [ip r1] eqn:Hip.
  apply span_digits_length in Hip.
  destruct ip as [|d [|d' ip']]; simpl in H; [discriminate H| |].
  - apply (number_fraction_length
             (fun fp e => round_dec neg (digits_val (d :: fp))
                            (e - Z.of_nat (length fp)))) in H.
    simpl in *. lia.
  - destruct (d =? 48); simpl in H; [discriminate H|].
    apply (number_fraction_length
             (fun fp e => round_dec neg (digits_val (d :: d' :: ip' ++ fp))
                            (e - Z.of_nat (length fp)))) in H.
    simpl in *. lia.
Qed.

Lemma starts_with_length (p s : jstring) :
  starts_with p s = true -> (length p <= length s)%nat.
Proof.
  revert s. induction p as [|a p IH]; intros [|b s]; simpl; try lia.
  intros H. apply andb_true_iff in H. destruct H as [_ H].
  apply IH in H. lia.
Qed.

Lemma expect_length (p s r : jstring) (v v' : value) :
  p <> [] -> expect p v s = Some (v', r) -> (length r < length s)%nat.
Proof.
  unfold expect. intros Hp. destruct (starts_with p s) eqn:E; [|discriminate].
  apply starts_with_length in E. intros [= _ <-].
  rewrite length_drop. destruct p; [congruence|]. simpl in *. lia.
Qed.

(** One case analysis on the parser's next test, in the hypothesis [H]
    that a parse succeeded; what is known of the lengths is kept. *)
Ltac parser_case H :=
  lazymatch type of H with
  | match skip_ws ?s with _ => _ end = _ =>
      let L := fresh "L" in
      pose proof (skip_ws_length s) as L;
      destruct (skip_ws s); [try discriminate H|]; simpl in L
  | (if ?b then _ else _) = _ => destruct b
  | match parse_chars ?s ?a with _ => _ end = _ =>
      let E := fresh "E" in
      destruct (parse_chars s a) as [[? ?]|] eqn:E;
      [apply parse_chars_length in E | discriminate H]
  | match parse_number ?s with _ => _ end = _ =>
      let E := fresh "E" in
      destruct (parse_number s) as [[? ?]|] eqn:E;
      [apply parse_number_length in E | discriminate H]
  | match ?p with _ => _ end = _ =>
      let E := fresh "E" in
      destruct p as [[? ?]|] eqn:E; [|discriminate H]
  | expect _ _ _ = _ =>
      apply expect_length in H; [|intros Hnil; discriminate Hnil]
  | Some _ = Some _ => injection H as <- <-
  | None = Some _ => discriminate H
  end.

Lemma parse_lengths (fuel : nat) :
  (forall s v r, parse_value fuel s = Some (v, r) ->
                 (length r < length s)%nat)
  /\ (forall s vs r, parse_elements fuel s = Some (vs, r) ->
                     (length r < length s)%nat)
  /\ (forall s props ps r, parse_members fuel s props = Some (ps, r) ->
                           (length r < length s)%nat).
Proof.
  induction fuel as [|fuel (IHv & IHe & IHm)].
  - repeat split; intros; discriminate.
  - split; [|split].
    + intros s v r H. simpl in H.
      repeat parser_case H;
        repeat match goal with
               | E : parse_members _ _ _ = Some _ |- _ => apply IHm in E
               | E : parse_elements _ _ = Some _ |- _ => apply IHe in E
               end;
        simpl in *; lia.
    + intros s vs r H. simpl in H.
      repeat parser_case H;
        repeat match goal with
               | E : parse_value _ _ = Some _ |- _ => apply IHv in E
               | E : parse_elements _ _ = Some _ |- _ => apply IHe in E
               end;
        simpl in *; lia.
    + intros s props ps r H. simpl in H.
      repeat parser_case H;
        repeat match goal with
               | E : parse_value _ _ = Some _ |- _ => apply IHv in E
               | E : parse_members _ _ _ = Some _ |- _ => apply IHm in E
               end;
        simpl in *; lia.
Qed.

(** One step in comparing two runs of a parser that differ in their fuel:
    bring a call of the first run to the fuel [f2] of the second, or
    analyse the test both runs make next. *)
Ltac fuel_step f2 IHv IHe IHm :=
  first
    [ reflexivity
    | rewrite (IHv f2) by (simpl in *; lia)
    | rewrite (IHe f2) by (simpl in *; lia)
    | rewrite (IHm f2) by (simpl in *; lia)
    | lazymatch goal with
      | |- match skip_ws ?s with _ => _ end = _ =>
          let L := fresh "L" in
          pose proof (skip_ws_length s) as L;
          destruct (skip_ws s); simpl in L
      | |- (if ?b then _ else _) = _ => destruct b
      | |- match parse_value ?f ?s with _ => _ end = _ =>
          let E := fresh "E" in
          destruct (parse_value f s) as [[? ?]|] eqn:E;
          [apply (proj1 (parse_lengths f)) in E|]
      | |- match parse_chars ?s ?a with _ => _ end = _ =>
          let E := fresh "E" in
          destruct (parse_chars s a) as [[? ?]|] eqn:E;
          [apply parse_chars_length in E|]
      end ].

Lemma parse_fuel (f1 : nat) :
  (forall f2 s,
      (2 * length s + 1 <= f1)%nat -> (2 * length s + 1 <= f2)%nat ->
      parse_value f1 s = parse_value f2 s)
  /\ (forall f2 s,
        (2 * length s + 2 <= f1)%nat -> (2 * length s + 2 <= f2)%nat ->
        parse_elements f1 s = parse_elements f2 s)
  /\ (forall f2 s props,
        (2 * length s + 2 <= f1)%nat -> (2 * length s + 2 <= f2)%nat ->
        parse_members f1 s props = parse_members f2 s props).
Proof.
  induction f1 as [|f1 (IHv & IHe & IHm)].
  - repeat split; intros; lia.
  - split; [|split].
    + intros [|f2] s H1 H2; [lia|]. simpl.
      repeat fuel_step f2 IHv IHe IHm.
    + intros [|f2] s H1 H2; [lia|]. simpl.
      repeat fuel_step f2 IHv IHe IHm.
    + intros [|f2] s props H1 H2; [lia|]. simpl.
      repeat fuel_step f2 IHv IHe IHm.
Qed.

(** [JSON.parse] does not depend on its fuel: any fuel above the bound
    gives the parse that [JSON.parse] returns. *)
Lemma JSON_parse_fuel (text : jstring) (fuel : nat) :
  (2 * length text + 1 <= fuel)%nat ->
  JSON.parse text
  = match parse_value fuel text with
    | Some (v, r) => match skip_ws r with [] => Some v | _ => None end
    | None => None
    end.
Proof.
  intros H. unfold JSON.parse.
  rewrite (proj1 (parse_fuel (2 * length text + 2)) fuel text) by lia.
  reflexivity.
Qed.

(** ** The result monad *)

Lemma bind_Ok {A B} (m : result A) (f : A -> result B) (b : B) :
  m ≫= f = Ok b -> exists a, m = Ok a /\ f a = Ok b.
Proof. destruct m as [a|]; simpl; [eauto | discriminate]. Qed.

Ltac inv_bind H :=
  let a := fresh "a" in
  let Ha := fresh "H" a in
  apply bind_Ok in H; destruct H as (a & Ha & H).

(** ** Totals *)

Lemma total_fold_filter (es : list entry) (s : float) :
  fold_left
    (fun s e =>
       if e_has_no_bids e then s
       else (s + match e_shown_amount e with Some x => x | None => zero end)%float)
    es s
  = fold_left (fun s e => (s + amount e)%float) (with_bids es) s.
Proof.
  revert s. induction es as [|e es IH]; intros s; simpl; [reflexivity|].
  destruct (e_has_no_bids e); simpl; apply IH.
Qed.

Lemma total_of_sum (es : list entry) : total_of es = sum_amounts (with_bids es).
Proof. apply total_fold_filter. Qed.

Lemma with_bids_app (l1 l2 : list entry) :
  with_bids (l1 ++ l2) = with_bids l1 ++ with_bids l2.
Proof. unfold with_bids. apply List.filter_app. Qed.

Lemma build_report_total targets allLots r :
  build_report targets allLots = Ok r -> total r = total_of (entries r).
Proof.
  unfold build_report. intros H. inv_bind H. inv_bind H.
  injection H as <-. reflexivity.
Qed.

(** C1.  The [total] of a report is the sum of [shown_amount] (zero for
    [null]) over the entries whose [has_no_bids] is [false], and an entry
    whose [has_no_bids] is [true] adds nothing to it, whatever its
    [shown_amount]. *)
Theorem total_is_sum_of_lots_with_bids targets allLots r :
  build_report targets allLots = Ok r ->
  total r = sum_amounts (with_bids (entries r))
  /\ forall l1 e l2,
       entries r = l1 ++ e :: l2 -> e_has_no_bids e = true ->
       total r = sum_amounts (with_bids (l1 ++ l2)).
Proof.
  intros H. apply build_report_total in H. rewrite H, total_of_sum.
  split; [reflexivity|].
  intros l1 e l2 -> He.
  rewrite !with_bids_app. simpl. rewrite He. reflexivity.
Qed.

(** ** The entry of a lot that was found *)

Lemma pickBidForLot_Ok lot b :
  pickBidForLot lot = Ok b ->
  exists bidCount,
    bid_count_of (opt_get lot (lit "bid_count_txt")) = Ok bidCount
    /\ b_bid_count b = bidCount
    /\ b_has_no_bids b
       = is_true (opt_get lot (lit "has_no_bids")) || (bidCount =? 0)%float
    /\ b_current_bid b
       = (if b_has_no_bids b then Some zero
          else toNumber (opt_get lot (lit "current_bid"))).
Proof.
  unfold pickBidForLot. intros H. inv_bind H.
  exists a. injection H as <-. simpl. repeat split; auto.
Qed.

Lemma found_entry_Ok lotNum lot e :
  found_entry lotNum lot = Ok e ->
  exists b,
    pickBidForLot lot = Ok b
    /\ e_lot e = Number_of_string lotNum
    /\ e_current_bid e = b_current_bid b
    /\ e_shown_amount e
       = match b_current_bid b with Some x => Some x | None => b_next_bid b end
    /\ e_bid_count e = b_bid_count b
    /\ e_has_no_bids e = b_has_no_bids b.
Proof.
  unfold found_entry. intros H. inv_bind H.
  exists a. injection H as <-. simpl. repeat split; auto.
Qed.

Lemma entry_of_found_Ok lotMap lotNum lot e :
  entry_of_found lotMap lotNum lot e -> found_entry lotNum lot = Ok e.
Proof.
  intros (Hm & Ht & He). unfold entry_for in He.
  rewrite Hm, Ht in He. exact He.
Qed.

(** C10.  A requested lot that is on the page and ends with [has_no_bids]
    true has [current_bid] and [shown_amount] equal to the number 0. *)
Theorem no_bids_entry_shows_zero lotMap lotNum lot e :
  entry_of_found lotMap lotNum lot e ->
  e_has_no_bids e = true ->
  e_current_bid e = Some zero /\ e_shown_amount e = Some zero.
Proof.
  intros He Hn. apply entry_of_found_Ok, found_entry_Ok in He.
  destruct He as (b & Hb & _ & Hc & Hs & _ & Hh).
  apply pickBidForLot_Ok in Hb. destruct Hb as (n & _ & _ & _ & Hcur).
  rewrite <- Hh, Hn in Hcur. rewrite Hs, Hc, Hcur. auto.
Qed.

(** The bid count that [pickBidForLot] computes, when it does not throw,
    is the one the record's text spells. *)
Lemma bid_count_of_Ok (bidCountTxt : value) (n : float) :
  bid_count_of bidCountTxt = Ok n -> n = bid_count_of_text bidCountTxt.
Proof.
  unfold bid_count_of, bid_count_of_text.
  destruct bidCountTxt as [| |b|x|s|l|props].
  - intros [= <-]. reflexivity.
  - intros [= <-]. reflexivity.
  - destruct (truthy (JBool b)); [discriminate | intros [= <-]; reflexivity].
  - destruct (truthy (JNum x)); [discriminate | intros [= <-]; reflexivity].
  - destruct s as [|c s]; [intros [= <-]; reflexivity|].
    change (truthy (JStr (c :: s))) with true. cbv iota.
    destruct (match_bids (c :: s)); intros [= <-]; reflexivity.
  - discriminate.
  - discriminate.
Qed.

(** C7.  The [bid_count] of the entry of a record is the count that the
    record's [bid_count_txt] spells, and the entry's [has_no_bids] is true
    exactly when the record's own [has_no_bids] is [true] or that count is
    zero; a [bid_count_txt] of [" - 0 bids"], or none at all, makes it true
    whatever the record's [current_bid]. *)
Theorem has_no_bids_iff lotMap lotNum lot e :
  entry_of_found lotMap lotNum lot e ->
  e_bid_count e = bid_count_of_text (opt_get lot (lit "bid_count_txt"))
  /\ (e_has_no_bids e = true <->
        opt_get lot (lit "has_no_bids") = JBool true
        \/ (bid_count_of_text (opt_get lot (lit "bid_count_txt")) =? 0)%float
           = true)
  /\ (e_has_no_bids e = true <->
        opt_get lot (lit "has_no_bids") = JBool true
        \/ (e_bid_count e =? 0)%float = true)
  /\ (opt_get lot (lit "bid_count_txt") = JStr (lit " - 0 bids") ->
      e_has_no_bids e = true)
  /\ (opt_get lot (lit "bid_count_txt") = JUndefined ->
      e_has_no_bids e = true).
Proof.
  intros He. apply entry_of_found_Ok, found_entry_Ok in He.
  destruct He as (b & Hb & _ & _ & _ & Hcount & Hh).
  apply pickBidForLot_Ok in Hb. destruct Hb as (n & Hn & Hbn & Hno & _).
  apply bid_count_of_Ok in Hn.
  rewrite Hh, Hcount, Hbn, Hno, Hn. clear Hh Hcount Hbn Hno Hn.
  assert (is_true (opt_get lot (lit "has_no_bids")) = true
          <-> opt_get lot (lit "has_no_bids") = JBool true) as Hflag.
  { destruct (opt_get lot (lit "has_no_bids")) as [| |[|]| | | |];
      simpl; split; congruence. }
  split; [reflexivity|]. split; [|split; [|split]].
  - rewrite orb_true_iff, Hflag. tauto.
  - rewrite orb_true_iff, Hflag. tauto.
  - intros ->. apply orb_true_r.
  - intros ->. apply orb_true_r.
Qed.

(** What [toNumber] makes of a string: the finite [parseFloat] of the
    string without its commas. *)
Lemma toNumber_string (s : jstring) (x : float) :
  toNumber (JStr s) = Some x
  <-> parseFloat (strip_commas s) = x /\ isFinite x = true.
Proof.
  simpl. destruct (isFinite (parseFloat (strip_commas s))) eqn:E; split.
  - intros [= <-]. auto.
  - intros [<- _]. reflexivity.
  - discriminate.
  - intros [<- H]. congruence.
Qed.

Lemma toNumber_None (v : value) : toNumber v = None <-> not_numeric v.
Proof.
  destruct v; simpl; try tauto.
  - destruct (isFinite x); split; congruence.
  - destruct (isFinite _); split; congruence.
Qed.

(** C6, amended.  The [current_bid] of the entry of a record is the number
    0 when the entry's [has_no_bids] is true; otherwise it is [toNumber] of
    the record's [current_bid], which for a string is its [parseFloat]
    once the commas are gone, and it is [null] exactly when that field is
    absent or is no finite number. *)
Theorem current_bid_of_entry lotMap lotNum lot e :
  entry_of_found lotMap lotNum lot e ->
  (e_has_no_bids e = true -> e_current_bid e = Some zero)
  /\ (e_has_no_bids e = false ->
      e_current_bid e = toNumber (opt_get lot (lit "current_bid"))
      /\ (forall s x,
            opt_get lot (lit "current_bid") = JStr s ->
            (e_current_bid e = Some x
             <-> parseFloat (strip_commas s) = x /\ isFinite x = true))
      /\ (e_current_bid e = None
          <-> not_numeric (opt_get lot (lit "current_bid")))).
Proof.
  intros He. apply entry_of_found_Ok, found_entry_Ok in He.
  destruct He as (b & Hb & _ & Hc & _ & _ & Hh).
  apply pickBidForLot_Ok in Hb. destruct Hb as (n & _ & _ & _ & Hcur).
  rewrite <- Hh in Hcur. rewrite Hc, Hcur.
  split; intros ->; [reflexivity|].
  split; [reflexivity|]. split.
  - intros s x ->. apply toNumber_string.
  - apply toNumber_None.
Qed.

(** ** Deduplication *)

Lemma build_lotMap_lookup (allLots : list value) (m m' : gmap jstring value)
  (k : jstring) :
  build_lotMap allLots m = Ok m' ->
  m' !! k = match m !! k with
            | Some v => Some v
            | None => List.find (has_key k) allLots
            end.
Proof.
  revert m. induction allLots as [|lot rest IH]; intros m H; simpl in H.
  - injection H as <-. destruct (m !! k); reflexivity.
  - inv_bind H. rewrite (IH _ H). clear IH H.
    simpl. unfold has_key. rewrite Ha.
    destruct (m !! a) eqn:Hm.
    + destruct (m !! k) eqn:Hk; [reflexivity|].
      case_bool_decide; [congruence | reflexivity].
    + case_bool_decide as Hak.
      * subst a. rewrite lookup_insert_eq, Hm. reflexivity.
      * rewrite lookup_insert_ne by exact Hak. reflexivity.
Qed.

Lemma find_app_first {A} (f : A -> bool) (l1 l2 : list A) :
  List.find f (l1 ++ l2)
  = match List.find f l1 with
    | Some x => Some x
    | None => List.find f l2
    end.
Proof.
  induction l1 as [|a l1 IH]; simpl; [reflexivity|].
  destruct (f a); [reflexivity | exact IH].
Qed.

Lemma build_lotMap_app (l1 l2 : list value) (m : gmap jstring value) :
  build_lotMap (l1 ++ l2) m = build_lotMap l1 m ≫= build_lotMap l2.
Proof.
  revert m. induction l1 as [|lot l1 IH]; intros m; simpl; [reflexivity|].
  destruct (lot_key lot) as [k|]; simpl; [apply IH | reflexivity].
Qed.

(** A lot whose identifier is in the map already leaves the map as it is. *)
Lemma build_lotMap_skip (y : value) (l : list value) (m : gmap jstring value)
  (k : jstring) :
  lot_key y = Ok k -> is_Some (m !! k) ->
  build_lotMap (y :: l) m = build_lotMap l m.
Proof.
  intros Hy [v Hv]. simpl. rewrite Hy. simpl. rewrite Hv. reflexivity.
Qed.

Lemma build_lotMap_duplicate (l1 l2 l3 : list value) (x y : value)
  (m : gmap jstring value) :
  lot_key x = lot_key y ->
  build_lotMap (l1 ++ x :: l2 ++ y :: l3) m
  = build_lotMap (l1 ++ x :: l2 ++ l3) m.
Proof.
  intros Hxy.
  replace (l1 ++ x :: l2 ++ y :: l3) with ((l1 ++ x :: l2) ++ y :: l3)
    by (rewrite <- app_assoc; reflexivity).
  replace (l1 ++ x :: l2 ++ l3) with ((l1 ++ x :: l2) ++ l3)
    by (rewrite <- app_assoc; reflexivity).
  rewrite !(build_lotMap_app (l1 ++ x :: l2)).
  destruct (build_lotMap (l1 ++ x :: l2) m) as [m'|] eqn:Hm; [|reflexivity].
  change (build_lotMap (y :: l3) m' = build_lotMap l3 m').
  destruct (lot_key y) as [k|] eqn:Hy.
  - apply (build_lotMap_skip y l3 m' k Hy).
    rewrite (build_lotMap_lookup _ _ _ k Hm).
    destruct (m !! k); [eauto|].
    rewrite find_app_first.
    destruct (List.find (has_key k) l1); [eauto|].
    simpl. unfold has_key at 1. rewrite Hxy.
    rewrite bool_decide_eq_true_2 by reflexivity. eauto.
  - exfalso. rewrite build_lotMap_app in Hm.
    destruct (build_lotMap l1 m); simpl in Hm; [|discriminate].
    rewrite Hxy in Hm. discriminate.
Qed.

(** C4.  Deduplication is first-wins: the map holds, for an identifier,
    the first extracted lot that carries it, and a later lot with the
    identifier of an earlier one changes nothing in what [main] builds. *)
Theorem dedup_first_wins :
  (forall allLots lotMap k,
      build_lotMap allLots ∅ = Ok lotMap ->
      lotMap !! k = List.find (has_key k) allLots)
  /\ (forall targets l1 x l2 y l3,
        lot_key x = lot_key y ->
        build_report targets (l1 ++ x :: l2 ++ y :: l3)
        = build_report targets (l1 ++ x :: l2 ++ l3)).
Proof.
  split.
  - intros allLots lotMap k H.
    rewrite (build_lotMap_lookup _ _ _ k H), lookup_empty. reflexivity.
  - intros targets l1 x l2 y l3 Hxy. unfold build_report.
    rewrite (build_lotMap_duplicate l1 l2 l3 x y ∅ Hxy). reflexivity.
Qed.

(** ** The entries *)

Lemma entry_for_lot (lotMap : gmap jstring value) (lotNum : jstring) (e : entry) :
  entry_for lotMap lotNum = Ok e -> e_lot e = Number_of_string lotNum.
Proof.
  unfold entry_for.
  destruct (lotMap !! lotNum) as [lot|]; [destruct (truthy lot)|].
  - intros H. apply found_entry_Ok in H. destruct H as (b & _ & H & _). exact H.
  - intros [= <-]. reflexivity.
  - intros [= <-]. reflexivity.
Qed.

(** The first loop pushes, in the order of the targets, one entry for
    each. *)
Lemma build_entries_Ok (lotMap : gmap jstring value) (targets : list jstring)
  (acc es : list entry) :
  build_entries lotMap targets acc = Ok es ->
  exists es',
    es = acc ++ es'
    /\ Forall2 (fun t e => entry_for lotMap t = Ok e) targets es'.
Proof.
  revert acc. induction targets as [|t targets IH]; intros acc H; simpl in H.
  - injection H as <-. exists []. rewrite app_nil_r. split; constructor.
  - inv_bind H. destruct (IH _ H) as (es' & -> & HF).
    exists (a :: es'). rewrite <- app_assoc. split; [reflexivity|].
    constructor; assumption.
Qed.

Lemma entries_lots (lotMap : gmap jstring value) (targets : list jstring)
  (es : list entry) :
  Forall2 (fun t e => entry_for lotMap t = Ok e) targets es ->
  List.map e_lot es = List.map Number_of_string targets.
Proof.
  induction 1 as [|t e targets es He _ IH]; simpl; [reflexivity|].
  rewrite IH, (entry_for_lot _ _ _ He). reflexivity.
Qed.

(** The second loop only ever appends. *)
Lemma ensure_entries_prefix (targets : list jstring) (es : list entry) :
  exists extra, ensure_entries targets es = es ++ extra.
Proof.
  revert es. induction targets as [|t targets IH]; intros es; simpl.
  - exists []. rewrite app_nil_r. reflexivity.
  - destruct (existsb _ es).
    + apply IH.
    + destruct (IH (es ++ [placeholder (Number_of_string t)])) as (extra & ->).
      rewrite <- app_assoc. eauto.
Qed.

(** It appends nothing when each target has its entry. *)
Lemma ensure_entries_id (targets : list jstring) (es : list entry) :
  (forall t, In t targets ->
     existsb (fun e => (e_lot e =? Number_of_string t)%float) es = true) ->
  ensure_entries targets es = es.
Proof.
  induction targets as [|t targets IH]; intros H; simpl; [reflexivity|].
  rewrite (H t) by (left; reflexivity).
  apply IH. intros t' Ht'. apply H. right. exact Ht'.
Qed.

Lemma existsb_lot (es : list entry) (n : float) :
  In n (List.map e_lot es) -> is_nan n = false ->
  existsb (fun e => (e_lot e =? n)%float) es = true.
Proof.
  intros Hin Hn. apply in_map_iff in Hin. destruct Hin as (e & <- & He).
  apply existsb_exists. exists e. split; [exact He|].
  unfold is_nan in Hn. apply negb_false_iff in Hn. exact Hn.
Qed.

(** ** The sort *)

Section SortFacts.
Context {A : Type} (cmp : A -> A -> float).

Lemma sort_insert_perm (x : A) (l : list A) :
  Permutation (sort_insert cmp x l) (x :: l).
Proof.
  induction l as [|y l IH]; simpl; [reflexivity|].
  destruct (0 <? cmp x y)%float; [|reflexivity].
  rewrite IH. apply perm_swap.
Qed.

Lemma sort_perm (l : list A) : Permutation (sort cmp l) l.
Proof.
  induction l as [|x l IH]; simpl; [reflexivity|].
  rewrite sort_insert_perm, IH. reflexivity.
Qed.

Lemma sort_insert_sorted (x : A) (l : list A) :
  consistent_on cmp (x :: l) ->
  StronglySorted (not_after cmp) l ->
  StronglySorted (not_after cmp) (sort_insert cmp x l).
Proof.
  intros Hc Hs. revert Hc.
  induction Hs as [|y l Hs IH Hy]; intros [Htot Htrans]; simpl.
  - repeat constructor.
  - destruct (0 <? cmp x y)%float eqn:E.
    + constructor.
      * apply IH; split.
        -- intros a b Ha Hb. apply Htot; simpl in *; tauto.
        -- intros a b c Ha Hb Hc. apply Htrans; simpl in *; tauto.
      * rewrite sort_insert_perm. constructor; [|exact Hy].
        destruct (Htot x y) as [H|H]; simpl; auto.
        unfold not_after in H. congruence.
    + constructor; [constructor; assumption|].
      constructor; [exact E|].
      rewrite Forall_forall in Hy |- *. intros z Hz.
      apply (Htrans x y z); simpl; auto.
      right. right. apply list_elem_of_In, Hz.
Qed.

Lemma sort_sorted (l : list A) :
  consistent_on cmp l -> StronglySorted (not_after cmp) (sort cmp l).
Proof.
  induction l as [|x l IH]; intros Hc; simpl; [constructor|].
  assert (forall u, In u (x :: sort cmp l) -> In u (x :: l)) as Hin.
  { intros u [<-|Hu]; [left; reflexivity|].
    right. eapply Permutation_in; eauto using sort_perm. }
  destruct Hc as [Htot Htrans]. apply sort_insert_sorted.
  - split.
    + intros a b Ha Hb. apply Htot; auto.
    + intros a b c Ha Hb Hc'. apply Htrans; auto.
  - apply IH. split.
    + intros a b Ha Hb. apply Htot; right; assumption.
    + intros a b c Ha Hb Hc'. apply Htrans; right; assumption.
Qed.
End SortFacts.

(** Sorting by a key sorts the keys. *)
Lemma sort_map {A B} (f : A -> B) (cmp : B -> B -> float) (l : list A) :
  List.map f (sort (fun a b => cmp (f a) (f b)) l) = sort cmp (List.map f l).
Proof.
  induction l as [|x l IH]; simpl; [reflexivity|].
  rewrite <- IH. generalize (sort (fun a b => cmp (f a) (f b)) l).
  intros s. induction s as [|y s IHs]; simpl; [reflexivity|].
  destruct (0 <? cmp (f x) (f y))%float; simpl; [rewrite IHs|]; reflexivity.
Qed.

(** ** The report *)

Lemma build_report_Ok (targets : list jstring) (allLots : list value)
  (r : report) :
  build_report targets allLots = Ok r ->
  exists lotMap es0,
    build_lotMap allLots ∅ = Ok lotMap
    /\ Forall2 (fun t e => entry_for lotMap t = Ok e) targets es0
    /\ entries r
       = sort (fun a b => by_lot (e_lot a) (e_lot b))
           (ensure_entries targets es0)
    /\ lots_requested r = sort by_lot (List.map Number_of_string targets).
Proof.
  unfold build_report. intros H. inv_bind H. inv_bind H.
  apply build_entries_Ok in Ha0. destruct Ha0 as (es' & -> & HF).
  injection H as <-. exists a, es'. simpl. auto.
Qed.

Lemma numeric_lots_no_extra (lotMap : gmap jstring value)
  (targets : list jstring) (es0 : list entry) :
  numeric_lots targets ->
  Forall2 (fun t e => entry_for lotMap t = Ok e) targets es0 ->
  ensure_entries targets es0 = es0.
Proof.
  intros Hnum HF. apply ensure_entries_id. intros t Ht.
  apply existsb_lot.
  - rewrite (entries_lots _ _ _ HF). apply in_map. exact Ht.
  - unfold numeric_lots in Hnum. rewrite Forall_forall in Hnum.
    apply Hnum, list_elem_of_In, Ht.
Qed.

(** Each requested lot has its entry, and no other entry is there: the
    entries are, but for their order, the entries [es0] that the first loop
    builds target by target. *)
Lemma report_entries_perm (targets : list jstring) (allLots : list value)
  (r : report) :
  numeric_lots targets ->
  build_report targets allLots = Ok r ->
  exists es0,
    Permutation (entries r) es0
    /\ Forall2 (fun t e => e_lot e = Number_of_string t) targets es0
    /\ List.map e_lot (entries r) = lots_requested r.
Proof.
  intros Hnum H. apply build_report_Ok in H.
  destruct H as (lotMap & es0 & _ & HF & He & Hl).
  rewrite (numeric_lots_no_extra _ _ _ Hnum HF) in He.
  exists es0. split; [|split].
  - rewrite He. apply sort_perm.
  - eapply Forall2_impl; [exact HF|]. intros t e. apply entry_for_lot.
  - rewrite He, Hl, (sort_map e_lot by_lot), (entries_lots _ _ _ HF).
    reflexivity.
Qed.

Lemma numeric_lots_forallb (targets : list jstring) :
  forallb (fun t => negb (is_nan (Number_of_string t))) targets = true ->
  numeric_lots targets.
Proof.
  intros H. apply Forall_forall. intros t Ht.
  rewrite forallb_forall in H. apply negb_true_iff, H, list_elem_of_In, Ht.
Qed.

Lemma TARGET_LOTS_numeric : numeric_lots TARGET_LOTS.
Proof. apply numeric_lots_forallb. vm_compute. reflexivity. Qed.

(** With the targets of [scrape.js], whatever the page: the lot numbers of
    the entries are those of [TARGET_LOTS], in ascending order. *)
Lemma main_entries_lots (fuel : nat) (html : jstring) (r : report) :
  main fuel html = Some (Ok r) ->
  List.map e_lot (entries r) = target_numbers.
Proof.
  unfold main, main_for. intros H.
  destruct (extractLotObjects fuel html) as [allLots|]; [|discriminate].
  injection H as H.
  destruct (report_entries_perm _ _ _ TARGET_LOTS_numeric H)
    as (es0 & _ & _ & Hl).
  rewrite Hl. apply build_report_Ok in H.
  destruct H as (_ & _ & _ & _ & _ & ->).
  vm_compute. reflexivity.
Qed.

(** C2.  Whatever the page, when the requested identifiers are numbers the
    entries of the report stand one for one for the identifiers (no
    other entry, none twice, none missing), and they come in ascending
    order of their lot number wherever the comparator [a.lot - b.lot] is
    consistent on the requested lot numbers; with the identifiers of
    [scrape.js] the lot numbers of the entries are 5, 18, ..., 158 in that
    order. *)
Theorem entries_one_per_lot_sorted :
  (forall (targets : list jstring) (fuel : nat) (html : jstring) (r : report),
      numeric_lots targets ->
      main_for targets fuel html = Some (Ok r) ->
      (exists es0,
          Permutation (entries r) es0
          /\ Forall2 (fun t e => e_lot e = Number_of_string t) targets es0)
      /\ (consistent_on by_lot (List.map Number_of_string targets) ->
          StronglySorted (not_after by_lot) (List.map e_lot (entries r))))
  /\ (forall (fuel : nat) (html : jstring) (r : report),
        main fuel html = Some (Ok r) ->
        List.map e_lot (entries r) = target_numbers).
Proof.
  split; [|exact main_entries_lots].
  intros targets fuel html r Hnum H. unfold main_for in H.
  destruct (extractLotObjects fuel html) as [allLots|]; [|discriminate].
  injection H as H.
  destruct (report_entries_perm _ _ _ Hnum H) as (es0 & Hp & HF & Hl).
  split; [eauto|]. intros Hcons.
  rewrite Hl. apply build_report_Ok in H.
  destruct H as (_ & _ & _ & _ & _ & ->).
  apply sort_sorted. exact Hcons.
Qed.

(** C3.  A requested lot that the deduplicated map does not hold gets a
    placeholder entry: its lot number, every bid, status and estimate field
    [null], and [has_no_bids] true. *)
Theorem absent_lot_placeholder (targets : list jstring)
  (allLots : list value) (lotMap : gmap jstring value) (lotNum : jstring)
  (r : report) :
  build_lotMap allLots ∅ = Ok lotMap ->
  lotMap !! lotNum = None ->
  In lotNum targets ->
  build_report targets allLots = Ok r ->
  exists e,
    In e (entries r)
    /\ e_lot e = Number_of_string lotNum
    /\ e_current_bid e = None /\ e_next_bid e = None
    /\ e_shown_amount e = None /\ e_status e = JNull
    /\ e_estimate e = JNull /\ e_bid_text e = JNull
    /\ e_has_no_bids e = true.
Proof.
  intros Hm Hnone Hin H. apply build_report_Ok in H.
  destruct H as (lotMap' & es0 & Hm' & HF & He & _).
  assert (lotMap' = lotMap) as -> by congruence.
  exists (placeholder (Number_of_string lotNum)).
  split; [|simpl; repeat split; reflexivity].
  rewrite He. eapply Permutation_in; [symmetry; apply sort_perm|].
  destruct (ensure_entries_prefix targets es0) as (extra & ->).
  apply in_or_app. left.
  clear He. induction HF as [|t e ts es Hte _ IH]; [destruct Hin|].
  destruct Hin as [->|Hin].
  - left. unfold entry_for in Hte. rewrite Hnone in Hte.
    injection Hte as <-. reflexivity.
  - right. apply IH. exact Hin.
Qed.

(** ** The extractor *)

Lemma extract_loop_S (fuel : nat) (html : jstring) (st : nat * list value) :
  extract_loop (S fuel) html st
  = match extract_step html st with
    | inr results => Some results
    | inl st' => extract_loop fuel html st'
    end.
Proof. reflexivity. Qed.

(** One turn of the loop at a candidate: the cursor goes right after the
    candidate, which joins the results when it parses and is dropped when
    it does not. *)
Lemma extract_step_candidate (html : jstring) (idx start end_ : nat)
  (results : list value) :
  candidate_at html idx start end_ ->
  extract_step html (idx, results)
  = inl ((end_ + 1)%nat,
         match parse_candidate (slice html start (end_ + 1)) with
         | Some obj => results ++ [obj]
         | None => results
         end).
Proof.
  intros (keyIdx & Hk & Hs & Hb & Hf). unfold extract_step.
  rewrite Hk, Hs, Hb, Hf. reflexivity.
Qed.

(** A turn of the loop never takes a result back. *)
Lemma extract_step_grows (html : jstring) (st : nat * list value) :
  match extract_step html st with
  | inl (_, results') => exists more, results' = st.2 ++ more
  | inr out => out = st.2
  end.
Proof.
  destruct st as [idx results]. unfold extract_step. simpl.
  destruct (indexOf html marker idx) as [keyIdx|]; [|reflexivity].
  assert (exists more, results = results ++ more) as Hsame
    by (exists []; rewrite app_nil_r; reflexivity).
  destruct (html !! scan_left html keyIdx) as [c|]; [|exact Hsame].
  destruct (N.eq_dec c 123) as [->|Hc].
  - destruct (match_forward _ _ _) as [end_ found].
    destruct found; [|exact Hsame].
    destruct (parse_candidate _); [eauto | exact Hsame].
  - destruct c as [|p]; [exact Hsame|].
    do 7 (destruct p as [p|p|]; try exact Hsame). congruence.
Qed.

Lemma extract_loop_grows (fuel : nat) (html : jstring) (idx : nat)
  (results out : list value) :
  extract_loop fuel html (idx, results) = Some out ->
  exists more, out = results ++ more.
Proof.
  revert idx results. induction fuel as [|fuel IH]; intros idx results H;
    [discriminate|].
  rewrite extract_loop_S in H.
  pose proof (extract_step_grows html (idx, results)) as Hg.
  destruct (extract_step html (idx, results)) as [[idx' results']|out'].
  - destruct Hg as (more & ->). apply IH in H. destruct H as (more' & ->).
    rewrite <- app_assoc. eauto.
  - injection H as <-. simpl in Hg. subst out'.
    exists []. rewrite app_nil_r. reflexivity.
Qed.

(** A candidate that fails to parse is dropped, and the scan goes on from
    right after it. *)
Lemma skip_failed_candidate (html : jstring)
  (idx s1 e1 s2 e2 : nat) (results : list value) (v : value) :
  candidate_at html idx s1 e1 ->
  parse_candidate (slice html s1 (e1 + 1)) = None ->
  candidate_at html (e1 + 1) s2 e2 ->
  parse_candidate (slice html s2 (e2 + 1)) = Some v ->
  (forall fuel,
      extract_loop (S fuel) html (idx, results)
      = extract_loop fuel html ((e1 + 1)%nat, results))
  /\ (forall fuel out,
        extract_loop fuel html (idx, results) = Some out -> In v out)
  /\ (indexOf html marker (e2 + 1) = None ->
      forall fuel,
        extract_loop (3 + fuel) html (idx, results) = Some (results ++ [v])).
Proof.
  intros Hc1 Hp1 Hc2 Hp2.
  pose proof (extract_step_candidate html idx s1 e1 results Hc1) as H1.
  pose proof (extract_step_candidate html (e1 + 1) s2 e2 results Hc2) as H2.
  rewrite Hp1 in H1. rewrite Hp2 in H2.
  split; [|split].
  - intros fuel. rewrite extract_loop_S, H1. reflexivity.
  - intros [|[|fuel]] out H; [discriminate| |];
      rewrite extract_loop_S, H1 in H; [discriminate|].
    rewrite extract_loop_S, H2 in H. apply extract_loop_grows in H.
    destruct H as (more & ->).
    apply in_or_app. left. apply in_or_app. right. left. reflexivity.
  - intros Hend fuel. change (3 + fuel)%nat with (S (S (S fuel))).
    rewrite extract_loop_S, H1, extract_loop_S, H2, extract_loop_S.
    unfold extract_step. rewrite Hend. reflexivity.
Qed.

Lemma marker_head : marker = 34 :: lit "lot_number" ++ [34].
Proof. reflexivity. Qed.

Lemma marker_length : length marker = 12%nat.
Proof. reflexivity. Qed.

Lemma starts_with_app (p s t : jstring) :
  starts_with p s = true -> starts_with p (s ++ t) = true.
Proof.
  revert s. induction p as [|a p IH]; intros [|b s]; simpl; try congruence.
  intros H. apply andb_true_iff in H. destruct H as [-> H].
  rewrite (IH _ H). reflexivity.
Qed.

Lemma starts_with_app_false (p s t : jstring) :
  starts_with p s = false -> (length p <= length s)%nat ->
  starts_with p (s ++ t) = false.
Proof.
  revert s. induction p as [|a p IH]; intros [|b s]; simpl; try congruence;
    try lia.
  intros H Hl. destruct (a =? b); [|reflexivity]. simpl in *.
  apply IH; [exact H | lia].
Qed.

Lemma index_from_length (p s : jstring) (base k : nat) :
  index_from p s base = Some k -> (length p <= length s)%nat.
Proof.
  revert base. induction s as [|c s IH]; intros base; simpl.
  - destruct (starts_with p []) eqn:E; [|discriminate].
    intros _. apply starts_with_length in E. exact E.
  - destruct (starts_with p (c :: s)) eqn:E.
    + intros _. apply starts_with_length in E. exact E.
    + intros H. apply IH in H. simpl. lia.
Qed.

Lemma index_from_app (p s t : jstring) (base k : nat) :
  index_from p s base = Some k -> index_from p (s ++ t) base = Some k.
Proof.
  revert base. induction s as [|c s IH]; intros base; simpl.
  - destruct (starts_with p []) eqn:E; [|discriminate].
    intros H. destruct p; [|discriminate E].
    destruct t; simpl; exact H.
  - destruct (starts_with p (c :: s)) eqn:E.
    + intros H. change (c :: s ++ t) with ((c :: s) ++ t).
      rewrite (starts_with_app _ _ _ E). exact H.
    + intros H. pose proof (index_from_length _ _ _ _ H) as Hl.
      change (c :: s ++ t) with ((c :: s) ++ t).
      rewrite (starts_with_app_false _ _ _ E) by (simpl; lia).
      apply IH. exact H.
Qed.

Lemma index_from_base (p s : jstring) (base : nat) :
  index_from p s base = (fun k => (base + k)%nat) <$> index_from p s 0.
Proof.
  revert base. induction s as [|c s IH]; intros base; simpl.
  - destruct (starts_with p []); simpl; [f_equal; lia | reflexivity].
  - destruct (starts_with p (c :: s)); simpl; [f_equal; lia|].
    rewrite (IH (S base)), (IH 1%nat).
    destruct (index_from p s 0); simpl; [f_equal; lia | reflexivity].
Qed.

Lemma starts_with_marker_cons (c : N) (r : jstring) :
  c <> 34 -> starts_with marker (c :: r) = false.
Proof.
  intros Hc. rewrite marker_head.
  change (starts_with (34 :: lit "lot_number" ++ [34]) (c :: r))
    with ((34 =? c) && starts_with (lit "lot_number" ++ [34]) r).
  destruct (N.eqb_spec 34 c) as [Heq|_]; [congruence | reflexivity].
Qed.

Lemma index_from_no_quote (a s : jstring) (base : nat) :
  no_quote a ->
  index_from marker (a ++ s) base = index_from marker s (length a + base).
Proof.
  unfold no_quote. revert base.
  induction a as [|c a IH]; intros base Ha; [reflexivity|].
  simpl in Ha. apply andb_true_iff in Ha. destruct Ha as [Hc Ha].
  apply negb_true_iff, N.eqb_neq in Hc. specialize (IH (S base) Ha).
  change (index_from marker ((c :: a) ++ s) base)
    with (if starts_with marker (c :: a ++ s) then Some base
          else index_from marker (a ++ s) (S base)).
  rewrite (starts_with_marker_cons _ _ Hc), IH.
  replace (length a + S base)%nat with (length (c :: a) + base)%nat
    by (simpl; lia).
  reflexivity.
Qed.

(** [indexOf] when the search starts where a part of the page starts. *)
Lemma indexOf_at (a s : jstring) :
  indexOf (a ++ s) marker (length a)
  = (fun k => (length a + k)%nat) <$> index_from marker s 0.
Proof.
  unfold indexOf. rewrite drop_app_length, length_app.
  rewrite Nat.min_l by lia. apply index_from_base.
Qed.

Lemma brace_match {A} (x : option N) (f g : A) :
  match x with Some 123 => f | _ => g end
  = if bool_decide (x = Some 123) then f else g.
Proof.
  case_bool_decide as H; [rewrite H; reflexivity|].
  destruct x as [[|p]|]; try reflexivity.
  do 7 (destruct p as [p|p|]; try reflexivity). congruence.
Qed.

Lemma scan_left_in_part (a c t : jstring) (k : nat) :
  c !! 0%nat = Some 123 -> (k < length c)%nat ->
  scan_left (a ++ c ++ t) (length a + k) = (length a + scan_left c k)%nat.
Proof.
  intros H0 Hk. induction k as [|k IH].
  - rewrite Nat.add_0_r. simpl. destruct (length a) as [|n] eqn:Hn; [reflexivity|].
    simpl. rewrite <- Hn, brace_match.
    rewrite lookup_app_r, Nat.sub_diag, lookup_app_l by lia.
    rewrite H0, bool_decide_eq_true_2 by reflexivity. lia.
  - rewrite Nat.add_succ_r. simpl. rewrite !brace_match.
    rewrite <- Nat.add_succ_r.
    rewrite lookup_app_r by lia.
    replace (length a + S k - length a)%nat with (S k) by lia.
    rewrite lookup_app_l by lia.
    case_bool_decide; [reflexivity|]. apply IH. lia.
Qed.

Lemma match_forward_app (s t : jstring) (e e' : nat) (d : Z) :
  match_forward s e d = (e', true) -> match_forward (s ++ t) e d = (e', true).
Proof.
  revert e d. induction s as [|ch s IH]; intros e d; simpl; [discriminate|].
  destruct (ch =? 123); [apply IH|].
  destruct (ch =? 125); [|apply IH].
  destruct (d - 1 =? 0)%Z; [auto | apply IH].
Qed.

Lemma match_forward_shift (s : jstring) (n e : nat) (d : Z) :
  match_forward s (n + e) d
  = let '(e', b) := match_forward s e d in ((n + e')%nat, b).
Proof.
  revert e d. induction s as [|ch s IH]; intros e d; simpl; [reflexivity|].
  rewrite <- !Nat.add_succ_r.
  destruct (ch =? 123); [apply IH|].
  destruct (ch =? 125); [|apply IH].
  destruct (d - 1 =? 0)%Z; [reflexivity | apply IH].
Qed.

Lemma index_from_bound (p s : jstring) (base k : nat) :
  index_from p s base = Some k ->
  (base <= k)%nat /\ (k - base + length p <= length s)%nat.
Proof.
  revert base. induction s as [|c s IH]; intros base; simpl.
  - destruct (starts_with p []) eqn:E; [|discriminate].
    intros [= <-]. apply starts_with_length in E. simpl in E. lia.
  - destruct (starts_with p (c :: s)) eqn:E.
    + intros [= <-]. apply starts_with_length in E. simpl in E. lia.
    + intros H. apply IH in H. simpl. lia.
Qed.

(** A whole candidate [c] inside a page, when the search from [idx] finds
    the marker of [c] first: the extractor takes [c], all of it. *)
Lemma candidate_at_part (a c t : jstring) (idx k : nat) :
  indexOf c marker 0 = Some k ->
  c !! 0%nat = Some 123 ->
  scan_left c k = 0%nat ->
  match_forward c 0 0 = ((length c - 1)%nat, true) ->
  indexOf (a ++ c ++ t) marker idx = Some (length a + k)%nat ->
  candidate_at (a ++ c ++ t) idx (length a) (length a + (length c - 1))
  /\ slice (a ++ c ++ t) (length a) (length a + (length c - 1) + 1) = c.
Proof.
  intros Hk H0 Hs Hf Hidx.
  assert (0 < length c)%nat as Hc by (destruct c; [discriminate | simpl; lia]).
  assert (k < length c)%nat as Hkc.
  { unfold indexOf in Hk. apply index_from_bound in Hk.
    rewrite drop_0, marker_length in Hk. lia. }
  split.
  - exists (length a + k)%nat. split; [exact Hidx|].
    rewrite (scan_left_in_part a c t k H0 Hkc), Hs, Nat.add_0_r.
    split; [reflexivity|]. split.
    + rewrite lookup_app_r, Nat.sub_diag, lookup_app_l by lia. exact H0.
    + rewrite drop_app_length.
      rewrite <- (Nat.add_0_r (length a)) at 1.
      rewrite match_forward_shift, (match_forward_app _ _ _ _ _ Hf).
      reflexivity.
  - unfold slice. rewrite drop_app_length.
    replace (length a + (length c - 1) + 1 - length a)%nat with (length c)
      by lia.
    apply take_app_length.
Qed.

(** The page: text without a double quote, a candidate that fails to
    parse, text without a double quote, a candidate that parses, and text
    without the marker. *)
Lemma extract_page_with_failed_candidate (pre bad mid good post : jstring)
  (v : value) :
  no_quote pre -> whole_candidate bad -> parse_candidate bad = None ->
  no_quote mid -> whole_candidate good -> parse_candidate good = Some v ->
  indexOf post marker 0 = None ->
  candidate_at (pre ++ bad ++ mid ++ good ++ post) 0
    (length pre) (length pre + (length bad - 1))
  /\ slice (pre ++ bad ++ mid ++ good ++ post) (length pre)
       (length pre + (length bad - 1) + 1) = bad
  /\ candidate_at (pre ++ bad ++ mid ++ good ++ post)
       (length pre + (length bad - 1) + 1)
       (length (pre ++ bad ++ mid))
       (length (pre ++ bad ++ mid) + (length good - 1))
  /\ slice (pre ++ bad ++ mid ++ good ++ post) (length (pre ++ bad ++ mid))
       (length (pre ++ bad ++ mid) + (length good - 1) + 1) = good
  /\ indexOf (pre ++ bad ++ mid ++ good ++ post) marker
       (length (pre ++ bad ++ mid) + (length good - 1) + 1) = None.
Proof.
  intros Hpre (k1 & Hk1 & Hb0 & Hbs & Hbf) Hbp
         Hmid (k2 & Hk2 & Hg0 & Hgs & Hgf) Hgp Hpost.
  assert (0 < length bad)%nat as Hb by (destruct bad; [discriminate | simpl; lia]).
  assert (0 < length good)%nat as Hg by (destruct good; [discriminate | simpl; lia]).
  assert (forall t, index_from marker (bad ++ t) 0 = Some k1) as Hi1.
  { intros t. apply index_from_app. unfold indexOf in Hk1.
    rewrite drop_0 in Hk1. exact Hk1. }
  assert (forall t, index_from marker (good ++ t) 0 = Some k2) as Hi2.
  { intros t. apply index_from_app. unfold indexOf in Hk2.
    rewrite drop_0 in Hk2. exact Hk2. }
  destruct (candidate_at_part pre bad (mid ++ good ++ post) 0 k1
              Hk1 Hb0 Hbs Hbf) as [Hc1 Hs1].
  { unfold indexOf. rewrite drop_0. simpl Nat.min.
    rewrite (index_from_no_quote _ _ _ Hpre), index_from_base, Hi1.
    simpl. f_equal. lia. }
  split; [exact Hc1|]. split; [exact Hs1|].
  assert (pre ++ bad ++ mid ++ good ++ post
          = (pre ++ bad ++ mid) ++ good ++ post) as Hassoc
    by (rewrite <- !app_assoc; reflexivity).
  assert (pre ++ bad ++ mid ++ good ++ post
          = (pre ++ bad) ++ mid ++ good ++ post) as Hassoc2
    by (rewrite <- !app_assoc; reflexivity).
  assert (pre ++ bad ++ mid ++ good ++ post
          = (pre ++ bad ++ mid ++ good) ++ post) as Hassoc3
    by (rewrite <- !app_assoc; reflexivity).
  destruct (candidate_at_part (pre ++ bad ++ mid) good post
              (length pre + (length bad - 1) + 1) k2 Hk2 Hg0 Hgs Hgf)
    as [Hc2 Hs2].
  { rewrite <- Hassoc, Hassoc2.
    replace (length pre + (length bad - 1) + 1)%nat with (length (pre ++ bad))
      by (rewrite length_app; lia).
    rewrite indexOf_at, (index_from_no_quote _ _ _ Hmid), index_from_base, Hi2.
    simpl. f_equal. rewrite !length_app. lia. }
  rewrite <- Hassoc in Hc2, Hs2.
  split; [exact Hc2|]. split; [exact Hs2|].
  rewrite Hassoc3.
  replace (length (pre ++ bad ++ mid) + (length good - 1) + 1)%nat
    with (length (pre ++ bad ++ mid ++ good))
    by (rewrite !length_app; lia).
  rewrite indexOf_at. unfold indexOf in Hpost. rewrite drop_0 in Hpost.
  simpl in Hpost. rewrite Hpost. reflexivity.
Qed.

(** C5, amended.  When a candidate whose braces balance fails to parse,
    the extractor drops it and scans on from right after its closing brace;
    a candidate found from there that parses is in the results whenever the
    extractor returns.  So on a page made of text without a double quote,
    a candidate that fails to parse, text without a double quote, a
    candidate that parses and text without the marker, the extractor
    returns the parsed candidate, and nothing else. *)
Theorem failed_candidate_is_skipped :
  (forall (html : jstring) (idx s1 e1 s2 e2 : nat) (results : list value)
          (v : value),
      candidate_at html idx s1 e1 ->
      parse_candidate (slice html s1 (e1 + 1)) = None ->
      candidate_at html (e1 + 1) s2 e2 ->
      parse_candidate (slice html s2 (e2 + 1)) = Some v ->
      (forall fuel,
          extract_loop (S fuel) html (idx, results)
          = extract_loop fuel html ((e1 + 1)%nat, results))
      /\ (forall fuel out,
            extract_loop fuel html (idx, results) = Some out -> In v out))
  /\ (forall (pre bad mid good post : jstring) (v : value),
        no_quote pre -> whole_candidate bad -> parse_candidate bad = None ->
        no_quote mid -> whole_candidate good -> parse_candidate good = Some v ->
        indexOf post marker 0 = None ->
        forall fuel,
          extractLotObjects (3 + fuel) (pre ++ bad ++ mid ++ good ++ post)
          = Some [v]).
Proof.
  split.
  - intros html idx s1 e1 s2 e2 results v Hc1 Hp1 Hc2 Hp2.
    destruct (skip_failed_candidate html idx s1 e1 s2 e2 results v
                Hc1 Hp1 Hc2 Hp2) as (Hskip & Hin & _).
    split; assumption.
  - intros pre bad mid good post v Hpre Hbad Hbp Hmid Hgood Hgp Hpost fuel.
    destruct (extract_page_with_failed_candidate pre bad mid good post v
                Hpre Hbad Hbp Hmid Hgood Hgp Hpost)
      as (Hc1 & Hs1 & Hc2 & Hs2 & Hend).
    rewrite <- Hs1 in Hbp. rewrite <- Hs2 in Hgp.
    destruct (skip_failed_candidate _ _ _ _ _ _ [] v Hc1 Hbp Hc2 Hgp)
      as (_ & _ & Hret).
    exact (Hret Hend fuel).
Qed.

(** C5 as it stands fails: a candidate whose braces do not balance takes
    the scan to the end of the page, and the valid object after it is not
    returned. *)
Lemma unbalanced_candidate_hides_valid_object :
  let bad := q "{'lot_number':{ " in
  let good := q "{'lot_number':'2'}" in
  let v := JObj [(lit "lot_number", JStr (lit "2"))] in
  indexOf (bad ++ good) marker 0 = Some 1%nat
  /\ scan_left (bad ++ good) 1 = 0%nat
  /\ match_forward (bad ++ good) 0 0 = (length (bad ++ good), false)
  /\ JSON.parse good = Some v
  /\ indexOf good marker 0 = Some 1%nat
  /\ extractLotObjects 2 (bad ++ good) = Some []
  /\ forall fuel out,
       extractLotObjects fuel (bad ++ good) = Some out -> ~ In v out.
Proof.
  do 6 (split; [vm_compute; reflexivity|]).
  intros [|[|fuel]] out H; try discriminate.
  unfold extractLotObjects in H. rewrite !extract_loop_S in H.
  vm_compute in H. injection H as <-. intros [].
Qed.

(** ** The extractor need not return *)

Lemma nested_before_marker_turn (results : list value) :
  extract_step nested_before_marker (12%nat, results)
  = inl (12%nat, results ++ [JObj [(lit "b", JNum 1)]]).
Proof. vm_compute. reflexivity. Qed.

Lemma nested_before_marker_stuck (fuel : nat) (results : list value) :
  extract_loop fuel nested_before_marker (12%nat, results) = None.
Proof.
  revert results. induction fuel as [|fuel IH]; intros results;
    [reflexivity|].
  rewrite extract_loop_S, nested_before_marker_turn. apply IH.
Qed.

Lemma stray_marker_turn (results : list value) :
  extract_step stray_marker (16%nat, results)
  = inl (16%nat, results ++ [JObj [(lit "lot_number", JNum 1)]]).
Proof. vm_compute. reflexivity. Qed.

(** The same happens when the marker shows up in plain text after a
    record: the nearest opening brace on its left is that of the record,
    which is extracted again and again. *)
Lemma extractLotObjects_diverges_on_stray_marker (fuel : nat) :
  extractLotObjects fuel stray_marker = None.
Proof.
  destruct fuel as [|fuel]; [reflexivity|].
  unfold extractLotObjects. rewrite extract_loop_S.
  replace (extract_step stray_marker (0%nat, []))
    with (@inl (nat * list value) (list value)
            (16%nat, [JObj [(lit "lot_number", JNum 1)]]))
    by (vm_compute; reflexivity).
  generalize [JObj [(lit "lot_number", JNum 1)]].
  induction fuel as [|fuel IH]; intros results; [reflexivity|].
  rewrite extract_loop_S, stray_marker_turn. apply IH.
Qed.

(** C8 fails on the code: the backward scan stops at the nearest opening
    brace, matched or not; here that is the brace of the nested object,
    whose end lies before the marker, so the cursor comes back to 12 turn
    after turn and the loop never reaches its [break]. *)
Theorem extractLotObjects_diverges (fuel : nat) :
  extractLotObjects fuel nested_before_marker = None.
Proof.
  destruct fuel as [|fuel]; [reflexivity|].
  unfold extractLotObjects. rewrite extract_loop_S.
  replace (extract_step nested_before_marker (0%nat, []))
    with (@inl (nat * list value) (list value)
            (12%nat, [JObj [(lit "b", JNum 1)]]))
    by (vm_compute; reflexivity).
  apply nested_before_marker_stuck.
Qed.

(** ** The example of the specification *)

Lemma extract_lot5 (fuel : nat) :
  extractLotObjects (2 + fuel) lot5_html = Some [lot5_record].
Proof.
  unfold extractLotObjects. change (2 + fuel)%nat with (S (S fuel)).
  rewrite extract_loop_S.
  replace (extract_step lot5_html (0%nat, []))
    with (@inl (nat * list value) (list value) (70%nat, [lot5_record]))
    by (vm_compute; reflexivity).
  rewrite extract_loop_S.
  replace (extract_step lot5_html (70%nat, [lot5_record]))
    with (@inr (nat * list value) (list value) [lot5_record])
    by (vm_compute; reflexivity).
  reflexivity.
Qed.

Lemma lot5_map :
  build_lotMap [lot5_record] ∅ = Ok (<[lit "5" := lot5_record]> ∅).
Proof.
  unfold build_lotMap.
  replace (lot_key lot5_record) with (Ok (lit "5")) by (vm_compute; reflexivity).
  simpl. rewrite lookup_empty. reflexivity.
Qed.

Lemma lot5_entry_for (t : jstring) :
  entry_for (<[lit "5" := lot5_record]> ∅) t
  = Ok (if bool_decide (t = lit "5") then lot5_entry
        else placeholder (Number_of_string t)).
Proof.
  unfold entry_for. case_bool_decide as Ht.
  - subst t. rewrite lookup_insert_eq. vm_compute. reflexivity.
  - rewrite lookup_insert_ne by congruence. rewrite lookup_empty. reflexivity.
Qed.

Lemma lot5_entries (targets : list jstring) (acc : list entry) :
  exists es,
    build_entries (<[lit "5" := lot5_record]> ∅) targets acc = Ok es
    /\ (forall e, In e acc -> In e es)
    /\ (In (lit "5") targets -> In lot5_entry es).
Proof.
  revert acc. induction targets as [|t targets IH]; intros acc; simpl.
  - exists acc. split; [reflexivity|]. split; [auto | intros []].
  - rewrite lot5_entry_for. simpl.
    destruct (IH (acc ++ [if bool_decide (t = lit "5") then lot5_entry
                          else placeholder (Number_of_string t)]))
      as (es & Hes & Hacc & H5).
    exists es. split; [exact Hes|]. split.
    + intros e He. apply Hacc, in_or_app. left. exact He.
    + intros [->|Hin]; [|exact (H5 Hin)].
      apply Hacc, in_or_app. right. left.
      rewrite bool_decide_eq_true_2 by reflexivity. reflexivity.
Qed.

(** C9.  On the page that is the one object
    [{"lot_number":"5","current_bid":"1400.00","bid_count_txt":" - 3 bids"}],
    with lot 5 among the requested lots, the scraper writes a report, and
    in it an entry for lot 5 with [current_bid] 1400, [bid_count] 3 and
    [has_no_bids] false. *)
Theorem lot5_example (targets : list jstring) (fuel : nat) :
  In (lit "5") targets ->
  exists r,
    main_for targets (2 + fuel) lot5_html = Some (Ok r)
    /\ exists e,
         In e (entries r)
         /\ e_lot e = 5%float
         /\ e_current_bid e = Some 1400%float
         /\ e_bid_count e = 3%float
         /\ e_has_no_bids e = false.
Proof.
  intros H5. unfold main_for. rewrite extract_lot5.
  unfold build_report. rewrite lot5_map.
  destruct (lot5_entries targets []) as (es & Hes & _ & Hin).
  change (Ok (<[lit "5":=lot5_record]> ∅) ≫= ?f)
    with (f (<[lit "5":=lot5_record]> ∅)).
  cbv beta. rewrite Hes.
  eexists. split; [reflexivity|].
  exists lot5_entry. simpl entries.
  split; [|repeat split; reflexivity].
  eapply Permutation_in; [symmetry; apply sort_perm|].
  destruct (ensure_entries_prefix targets es) as (extra & ->).
  apply in_or_app. left. exact (Hin H5).
Qed.

(** In [scrape.js] itself lot 5 is requested. *)
Lemma lot5_example_witness :
  In (lit "5") TARGET_LOTS
  /\ exists r,
       main 2 lot5_html = Some (Ok r)
       /\ exists e,
            In e (entries r)
            /\ e_lot e = 5%float
            /\ e_current_bid e = Some 1400%float
            /\ e_bid_count e = 3%float
            /\ e_has_no_bids e = false.
Proof.
  assert (In (lit "5") TARGET_LOTS) as H by (left; reflexivity).
  split; [exact H|]. exact (lot5_example TARGET_LOTS 0 H).
Defined.

(** ** The theorems at work on a sample page *)

Lemma sample_map_built : build_lotMap sample_lots ∅ = Ok sample_map.
Proof. vm_compute. reflexivity. Qed.

Lemma sample_report_built :
  build_report TARGET_LOTS sample_lots = Ok sample_report.
Proof. vm_compute. reflexivity. Qed.

Lemma lot18_found :
  entry_of_found sample_map (lit "18") lot18_record lot18_entry.
Proof. repeat split; vm_compute; reflexivity. Qed.

Lemma lot20_found :
  entry_of_found sample_map (lit "20") lot20_record lot20_entry.
Proof. repeat split; vm_compute; reflexivity. Qed.

Lemma lot5_found :
  entry_of_found sample_map (lit "5") lot5_record lot5_entry.
Proof. repeat split; vm_compute; reflexivity. Qed.

Lemma total_is_sum_of_lots_with_bids_witness :
  build_report TARGET_LOTS sample_lots = Ok sample_report
  /\ total sample_report = sum_amounts (with_bids (entries sample_report))
  /\ forall l1 e l2,
       entries sample_report = l1 ++ e :: l2 -> e_has_no_bids e = true ->
       total sample_report = sum_amounts (with_bids (l1 ++ l2)).
Proof.
  split; [exact sample_report_built|].
  exact (total_is_sum_of_lots_with_bids TARGET_LOTS sample_lots sample_report
           sample_report_built).
Defined.

Lemma consistent_onb_true (l : list float) :
  consistent_onb l = true -> consistent_on by_lot l.
Proof.
  unfold consistent_onb, consistent_on, not_after.
  rewrite andb_true_iff, !forallb_forall. intros [Htot Htrans]. split.
  - intros x y Hx Hy. specialize (Htot x Hx).
    rewrite forallb_forall in Htot. specialize (Htot y Hy).
    apply orb_true_iff in Htot. rewrite !negb_true_iff in Htot. exact Htot.
  - intros x y z Hx Hy Hz Hxy Hyz. specialize (Htrans x Hx).
    rewrite forallb_forall in Htrans. specialize (Htrans y Hy).
    rewrite forallb_forall in Htrans. specialize (Htrans z Hz).
    rewrite Hxy, Hyz in Htrans. simpl in Htrans.
    apply negb_true_iff in Htrans. exact Htrans.
Qed.

Lemma TARGET_LOTS_consistent :
  consistent_on by_lot (List.map Number_of_string TARGET_LOTS).
Proof. apply consistent_onb_true. vm_compute. reflexivity. Qed.

Lemma sample_html_lots : extractLotObjects 5 sample_html = Some sample_lots.
Proof. vm_compute. reflexivity. Qed.

Lemma sample_html_report : main 5 sample_html = Some (Ok sample_report).
Proof. vm_compute. reflexivity. Qed.

Lemma entries_one_per_lot_sorted_witness :
  numeric_lots TARGET_LOTS
  /\ consistent_on by_lot (List.map Number_of_string TARGET_LOTS)
  /\ main_for TARGET_LOTS 5 sample_html = Some (Ok sample_report)
  /\ (exists es0,
         Permutation (entries sample_report) es0
         /\ Forall2 (fun t e => e_lot e = Number_of_string t) TARGET_LOTS es0)
  /\ StronglySorted (not_after by_lot)
       (List.map e_lot (entries sample_report))
  /\ List.map e_lot (entries sample_report) = target_numbers.
Proof.
  split; [exact TARGET_LOTS_numeric|].
  split; [exact TARGET_LOTS_consistent|].
  split; [exact sample_html_report|].
  pose proof (proj1 entries_one_per_lot_sorted TARGET_LOTS 5%nat sample_html
                sample_report TARGET_LOTS_numeric sample_html_report)
    as [Hone Hsorted].
  split; [exact Hone|].
  split; [exact (Hsorted TARGET_LOTS_consistent)|].
  exact (proj2 entries_one_per_lot_sorted 5%nat sample_html sample_report
           sample_html_report).
Defined.

Lemma absent_lot_placeholder_witness :
  build_lotMap sample_lots ∅ = Ok sample_map
  /\ sample_map !! lit "28" = None
  /\ In (lit "28") TARGET_LOTS
  /\ build_report TARGET_LOTS sample_lots = Ok sample_report
  /\ exists e,
       In e (entries sample_report)
       /\ e_lot e = Number_of_string (lit "28")
       /\ e_current_bid e = None /\ e_next_bid e = None
       /\ e_shown_amount e = None /\ e_status e = JNull
       /\ e_estimate e = JNull /\ e_bid_text e = JNull
       /\ e_has_no_bids e = true.
Proof.
  assert (sample_map !! lit "28" = None) as Hnone by (vm_compute; reflexivity).
  assert (In (lit "28") TARGET_LOTS) as Hin
    by (do 3 right; left; reflexivity).
  split; [exact sample_map_built|].
  split; [exact Hnone|].
  split; [exact Hin|].
  split; [exact sample_report_built|].
  exact (absent_lot_placeholder TARGET_LOTS sample_lots sample_map (lit "28")
           sample_report sample_map_built Hnone Hin sample_report_built).
Defined.

(** On the sample page the second record of lot 5 is as good as absent. *)
Lemma dedup_first_wins_witness :
  sample_map !! lit "5" = List.find (has_key (lit "5")) sample_lots
  /\ List.find (has_key (lit "5")) sample_lots = Some lot5_record
  /\ lot_key lot5_record = lot_key lot5_again
  /\ build_report TARGET_LOTS sample_lots
     = build_report TARGET_LOTS [lot5_record; lot18_record; lot20_record].
Proof.
  assert (lot_key lot5_record = lot_key lot5_again) as Hk
    by (vm_compute; reflexivity).
  split; [exact (proj1 dedup_first_wins sample_lots sample_map (lit "5")
                   sample_map_built)|].
  split; [vm_compute; reflexivity|].
  split; [exact Hk|].
  exact (proj2 dedup_first_wins TARGET_LOTS [] lot5_record [lot18_record]
           lot5_again [lot20_record] Hk).
Defined.

Lemma no_bids_entry_shows_zero_witness :
  entry_of_found sample_map (lit "18") lot18_record lot18_entry
  /\ e_has_no_bids lot18_entry = true
  /\ e_current_bid lot18_entry = Some zero
  /\ e_shown_amount lot18_entry = Some zero.
Proof.
  split; [exact lot18_found|]. split; [reflexivity|].
  exact (no_bids_entry_shows_zero sample_map (lit "18") lot18_record
           lot18_entry lot18_found eq_refl).
Defined.

Lemma lot45_found :
  entry_of_found lot45_map (lit "45") lot45_record lot45_entry.
Proof. repeat split; vm_compute; reflexivity. Qed.

Lemma has_no_bids_iff_witness :
  (entry_of_found sample_map (lit "5") lot5_record lot5_entry
   /\ opt_get lot5_record (lit "bid_count_txt") = JStr (lit " - 3 bids")
   /\ e_bid_count lot5_entry = 3%float
   /\ bid_count_of_text (opt_get lot5_record (lit "bid_count_txt")) = 3%float
   /\ e_has_no_bids lot5_entry = false)
  /\ (entry_of_found lot45_map (lit "45") lot45_record lot45_entry
      /\ opt_get lot45_record (lit "bid_count_txt") = JStr (lit " - 0 bids")
      /\ toNumber (opt_get lot45_record (lit "current_bid")) = Some 900%float
      /\ e_has_no_bids lot45_entry = true)
  /\ (entry_of_found sample_map (lit "18") lot18_record lot18_entry
      /\ opt_get lot18_record (lit "bid_count_txt") = JUndefined
      /\ e_has_no_bids lot18_entry = true).
Proof.
  split; [|split].
  - split; [exact lot5_found|]. split; [reflexivity|]. split; [reflexivity|].
    split; [|reflexivity].
    rewrite <- (proj1 (has_no_bids_iff sample_map (lit "5") lot5_record
                         lot5_entry lot5_found)).
    reflexivity.
  - split; [exact lot45_found|]. split; [reflexivity|].
    split; [vm_compute; reflexivity|].
    exact (proj1 (proj2 (proj2 (proj2
             (has_no_bids_iff lot45_map (lit "45") lot45_record lot45_entry
                lot45_found)))) eq_refl).
  - split; [exact lot18_found|]. split; [reflexivity|].
    exact (proj2 (proj2 (proj2 (proj2
             (has_no_bids_iff sample_map (lit "18") lot18_record lot18_entry
                lot18_found)))) eq_refl).
Defined.

Lemma current_bid_of_entry_witness :
  entry_of_found sample_map (lit "5") lot5_record lot5_entry
  /\ e_has_no_bids lot5_entry = false
  /\ e_current_bid lot5_entry
     = toNumber (opt_get lot5_record (lit "current_bid"))
  /\ e_current_bid lot5_entry = Some 1400%float.
Proof.
  split; [exact lot5_found|]. split; [reflexivity|].
  split; [|reflexivity].
  exact (proj1 (proj2 (current_bid_of_entry sample_map (lit "5") lot5_record
                         lot5_entry lot5_found) eq_refl)).
Defined.

(** C6 as it stands fails: lot 18 of the sample page has a current bid
    that parses to 2500.5, and lot 20 has none, yet with no bid on either
    the [current_bid] of both entries is the number 0. *)
Lemma current_bid_is_zero_without_bids :
  entry_of_found sample_map (lit "18") lot18_record lot18_entry
  /\ toNumber (opt_get lot18_record (lit "current_bid")) = Some 2500.5%float
  /\ e_current_bid lot18_entry = Some zero
  /\ e_current_bid lot18_entry
     <> toNumber (opt_get lot18_record (lit "current_bid"))
  /\ entry_of_found sample_map (lit "20") lot20_record lot20_entry
  /\ opt_get lot20_record (lit "current_bid") = JUndefined
  /\ e_current_bid lot20_entry <> None.
Proof.
  split; [exact lot18_found|].
  split; [vm_compute; reflexivity|].
  split; [reflexivity|].
  split.
  { intros H.
    apply (f_equal (fun o => match o with
                             | Some x => (x =? 0)%float
                             | None => false
                             end)) in H.
    vm_compute in H. discriminate. }
  split; [exact lot20_found|].
  split; [reflexivity|]. discriminate.
Qed.

Lemma failed_candidate_is_skipped_witness :
  no_quote (lit "<script>a = ")
  /\ whole_candidate failed_candidate
  /\ parse_candidate failed_candidate = None
  /\ no_quote (lit "; b = ")
  /\ whole_candidate valid_candidate
  /\ parse_candidate valid_candidate
     = Some (JObj [(lit "lot_number", JStr (lit "2"))])
  /\ indexOf (lit ";</script>") marker 0 = None
  /\ extractLotObjects 3 recovering_html
     = Some [JObj [(lit "lot_number", JStr (lit "2"))]].
Proof.
  assert (no_quote (lit "<script>a = ")) as H1 by reflexivity.
  assert (whole_candidate failed_candidate) as H2
    by (exists 1%nat; repeat split; vm_compute; reflexivity).
  assert (parse_candidate failed_candidate = None) as H3
    by (vm_compute; reflexivity).
  assert (no_quote (lit "; b = ")) as H4 by reflexivity.
  assert (whole_candidate valid_candidate) as H5
    by (exists 1%nat; repeat split; vm_compute; reflexivity).
  assert (parse_candidate valid_candidate
          = Some (JObj [(lit "lot_number", JStr (lit "2"))])) as H6
    by (vm_compute; reflexivity).
  assert (indexOf (lit ";</script>") marker 0 = None) as H7
    by (vm_compute; reflexivity).
  repeat (split; [assumption|]).
  exact (proj2 failed_candidate_is_skipped _ _ _ _ _ _
           H1 H2 H3 H4 H5 H6 H7 0%nat).
Defined.

(** * Further properties *)

(** ** What the extractor returns *)

Lemma match_forward_ge (rest : jstring) (e e' : nat) (d : Z) (b : bool) :
  match_forward rest e d = (e', b) -> (e <= e')%nat.
Proof.
  revert e d. induction rest as [|ch rest IH]; intros e d; simpl.
  - intros [= <- _]. lia.
  - destruct (ch =? 123); [intros H; apply IH in H; lia|].
    destruct (ch =? 125); [|intros H; apply IH in H; lia].
    destruct (d - 1 =? 0)%Z; [intros [= <- _]; lia|].
    intros H. apply IH in H. lia.
Qed.

Lemma match_forward_end (rest : jstring) (e e' : nat) (d : Z) :
  match_forward rest e d = (e', false) -> e' = (e + length rest)%nat.
Proof.
  revert e d. induction rest as [|ch rest IH]; intros e d; simpl.
  - intros [= <-]. lia.
  - destruct (ch =? 123); [intros H; apply IH in H; lia|].
    destruct (ch =? 125); [|intros H; apply IH in H; lia].
    destruct (d - 1 =? 0)%Z; [discriminate|].
    intros H. apply IH in H. lia.
Qed.

Lemma match_forward_found (rest : jstring) (e e' : nat) (d : Z) :
  match_forward rest e d = (e', true) -> (e' < e + length rest)%nat.
Proof.
  revert e d. induction rest as [|ch rest IH]; intros e d; simpl.
  - discriminate.
  - destruct (ch =? 123); [intros H; apply IH in H; lia|].
    destruct (ch =? 125); [|intros H; apply IH in H; lia].
    destruct (d - 1 =? 0)%Z; [intros [= <-]; lia|].
    intros H. apply IH in H. lia.
Qed.

Lemma slice_head (html : jstring) (start e : nat) (c : N) :
  html !! start = Some c -> (start <= e)%nat ->
  exists t, slice html start (e + 1) = c :: t.
Proof.
  intros Hc He. unfold slice. rewrite (drop_S _ _ _ Hc).
  replace (e + 1 - start)%nat with (S (e - start)) by lia.
  simpl. eauto.
Qed.

Lemma parse_value_object (fuel : nat) (w r : jstring) (v : value) :
  JSON.parse_value fuel (123 :: w) = Some (v, r) -> is_object v = true.
Proof.
  destruct fuel as [|fuel]; [discriminate|].
  cbn [JSON.parse_value]. cbn [JSON.skip_ws].
  change (JSON.is_ws 123) with false. cbv iota.
  change (123 =? 123) with true. cbv iota.
  destruct (JSON.skip_ws w) as [|c' r']; [discriminate|].
  destruct (c' =? 125); [intros [= <- _]; reflexivity|].
  destruct (JSON.parse_members fuel (c' :: r') []) as [[props r'']|];
    [|discriminate].
  intros [= <- _]. reflexivity.
Qed.

(** A candidate opens with a brace, and so does what the cleanup leaves of
    it: what parses is an object. *)
Lemma parse_candidate_object (t : jstring) (v : value) :
  parse_candidate (123 :: t) = Some v -> is_object v = true.
Proof.
  unfold parse_candidate, strip_line_separators, strip_trailing_commas.
  cbn [List.filter]. change ((123 =? 8232) || (123 =? 8233)) with false.
  cbn [negb]. cbv iota.
  cbn [strip_trailing_commas_from]. change (123 =? 44) with false. cbv iota.
  unfold JSON.parse.
  destruct (JSON.parse_value _ _) as [[v' r]|] eqn:E; [|discriminate].
  apply parse_value_object in E.
  destruct (JSON.skip_ws r); [|discriminate]. intros [= <-]. exact E.
Qed.

Lemma extract_step_objects (html : jstring) (idx : nat)
  (results : list value) :
  Forall (fun v => is_object v = true) results ->
  match extract_step html (idx, results) with
  | inl (_, results') => Forall (fun v => is_object v = true) results'
  | inr out => Forall (fun v => is_object v = true) out
  end.
Proof.
  intros Hres. unfold extract_step.
  destruct (indexOf html marker idx) as [keyIdx|]; [|exact Hres].
  rewrite brace_match. case_bool_decide as Hb; [|exact Hres].
  destruct (match_forward _ _ _) as [end_ found] eqn:Hf.
  destruct found; [|exact Hres].
  apply match_forward_ge in Hf.
  destruct (slice_head html _ end_ 123 Hb Hf) as (t & ->).
  destruct (parse_candidate (123 :: t)) as [obj|] eqn:Hp; [|exact Hres].
  apply parse_candidate_object in Hp.
  apply Forall_app. split; [exact Hres|]. repeat constructor. exact Hp.
Qed.

Lemma extract_loop_objects (fuel : nat) (html : jstring) (idx : nat)
  (results out : list value) :
  Forall (fun v => is_object v = true) results ->
  extract_loop fuel html (idx, results) = Some out ->
  Forall (fun v => is_object v = true) out.
Proof.
  revert idx results. induction fuel as [|fuel IH]; intros idx results Hres H;
    [discriminate H|].
  rewrite extract_loop_S in H.
  pose proof (extract_step_objects html idx results Hres) as Hs.
  destruct (extract_step html (idx, results)) as [[idx' results']|out'].
  - exact (IH _ _ Hs H).
  - injection H as <-. exact Hs.
Qed.

(** X1.  Whatever the page, every value that [extractLotObjects] returns is
    a plain object: never an array, a string, a number or [null]. *)
Theorem extracted_lots_are_objects (fuel : nat) (html : jstring)
  (out : list value) :
  extractLotObjects fuel html = Some out ->
  Forall (fun v => is_object v = true) out.
Proof. apply extract_loop_objects. constructor. Qed.

Lemma extracted_lots_are_objects_witness :
  extractLotObjects 5 sample_html = Some sample_lots
  /\ Forall (fun v => is_object v = true) sample_lots.
Proof.
  split; [exact sample_html_lots|].
  exact (extracted_lots_are_objects 5 sample_html sample_lots sample_html_lots).
Defined.

(** ** When the extractor returns *)

Lemma index_from_starts (p s : jstring) (base k : nat) :
  index_from p s base = Some k -> starts_with p (drop (k - base) s) = true.
Proof.
  revert base. induction s as [|c s IH]; intros base; simpl.
  - destruct (starts_with p []) eqn:E; [|discriminate].
    intros _. rewrite drop_nil. exact E.
  - destruct (starts_with p (c :: s)) eqn:E.
    + intros [= <-]. rewrite Nat.sub_diag. exact E.
    + intros H. pose proof (index_from_bound _ _ _ _ H) as [Hb _].
      apply IH in H.
      replace (k - base)%nat with (S (k - S base)) by lia. exact H.
Qed.

(** Where [indexOf] finds the marker: at or after the cursor, with room
    for its twelve code units. *)
Lemma indexOf_marker (html : jstring) (idx keyIdx : nat) :
  indexOf html marker idx = Some keyIdx ->
  (idx <= keyIdx)%nat /\ (keyIdx + 12 <= length html)%nat
  /\ marker_at html keyIdx = true.
Proof.
  unfold indexOf, marker_at. intros H.
  pose proof (index_from_bound _ _ _ _ H) as [Hb Hl].
  pose proof (index_from_starts _ _ _ _ H) as Hs.
  rewrite length_drop, marker_length in Hl.
  assert (idx <= length html)%nat as Hidx by lia.
  rewrite Nat.min_l in Hb, Hl, Hs by exact Hidx.
  rewrite drop_drop in Hs.
  replace (idx + (keyIdx - idx))%nat with keyIdx in Hs by lia.
  repeat split; [lia | lia | exact Hs].
Qed.

Lemma indexOf_past_end (html : jstring) (idx : nat) :
  (length html < idx + 12)%nat -> indexOf html marker idx = None.
Proof.
  intros H. destruct (indexOf html marker idx) as [k|] eqn:E; [|reflexivity].
  apply indexOf_marker in E. lia.
Qed.

(** With candidates that hold their marker, a turn of the loop moves the
    cursor forward. *)
Lemma extract_step_advances (html : jstring) (idx : nat)
  (results : list value) :
  candidates_hold_marker html ->
  match extract_step html (idx, results) with
  | inl (idx', _) => (idx < idx' <= length html + 1)%nat
  | inr _ => True
  end.
Proof.
  intros Hhold. unfold extract_step.
  destruct (indexOf html marker idx) as [keyIdx|] eqn:Hk; [|exact I].
  apply indexOf_marker in Hk. destruct Hk as (Hle & Hlen & Hat).
  specialize (Hhold keyIdx Hat). unfold closes_after in Hhold.
  rewrite brace_match. case_bool_decide as Hb; [|lia].
  rewrite Hb in Hhold. change (123 =? 123) with true in Hhold. cbv iota in Hhold.
  destruct (match_forward _ _ _) as [end_ found] eqn:Hf.
  destruct found.
  - apply Nat.leb_le in Hhold. apply match_forward_found in Hf.
    rewrite length_drop in Hf.
    assert (scan_left html keyIdx < length html)%nat
      by (apply lookup_lt_Some in Hb; exact Hb).
    lia.
  - apply match_forward_end in Hf. rewrite length_drop in Hf.
    assert (scan_left html keyIdx < length html)%nat
      by (apply lookup_lt_Some in Hb; exact Hb).
    lia.
Qed.

Lemma extract_loop_returns (html : jstring) (n idx : nat)
  (results : list value) :
  candidates_hold_marker html ->
  (idx <= length html + 1)%nat ->
  (length html + 2 <= n + idx)%nat ->
  exists out, extract_loop n html (idx, results) = Some out.
Proof.
  intros Hhold. revert idx results.
  induction n as [|n IH]; intros idx results Hidx Hn; [lia|].
  rewrite extract_loop_S.
  pose proof (extract_step_advances html idx results Hhold) as Hadv.
  destruct (extract_step html (idx, results)) as [[idx' results']|out].
  - apply IH; lia.
  - eauto.
Qed.

Lemma candidates_hold_markerb_true (html : jstring) :
  candidates_hold_markerb html = true -> candidates_hold_marker html.
Proof.
  unfold candidates_hold_markerb, candidates_hold_marker.
  rewrite forallb_forall. intros H keyIdx Hat.
  assert (keyIdx < length html)%nat as Hlt.
  { unfold marker_at in Hat. apply starts_with_length in Hat.
    rewrite length_drop, marker_length in Hat. lia. }
  specialize (H keyIdx). rewrite Hat in H. apply H.
  apply in_seq. lia.
Qed.

(** X2.  On a page where every candidate holds its marker (the brace that
    the backward scan finds does not close before the marker), the
    extractor returns, within as many turns as the page has code units and
    two. *)
Theorem extractor_returns (html : jstring) :
  candidates_hold_marker html ->
  exists out, extractLotObjects (length html + 2) html = Some out.
Proof.
  intros Hhold. apply extract_loop_returns; [exact Hhold | lia | lia].
Qed.

Lemma extractor_returns_witness :
  candidates_hold_marker sample_html
  /\ exists out,
       extractLotObjects (length sample_html + 2) sample_html = Some out.
Proof.
  assert (candidates_hold_marker sample_html) as H
    by (apply candidates_hold_markerb_true; vm_compute; reflexivity).
  split; [exact H|]. exact (extractor_returns sample_html H).
Defined.

(** Without an opening brace no turn adds a result. *)
Lemma extract_step_no_brace (html : jstring) (idx : nat)
  (results : list value) :
  ~ In 123 html ->
  match extract_step html (idx, results) with
  | inl (idx', results') =>
      (idx < idx' <= length html + 1)%nat /\ results' = results
  | inr out => out = results
  end.
Proof.
  intros Hno. unfold extract_step.
  destruct (indexOf html marker idx) as [keyIdx|] eqn:Hk; [|reflexivity].
  apply indexOf_marker in Hk. destruct Hk as (Hle & Hlen & _).
  rewrite brace_match. case_bool_decide as Hb; [|split; [lia | reflexivity]].
  exfalso. apply Hno. apply list_elem_of_In.
  eapply list_elem_of_lookup_2. exact Hb.
Qed.

Lemma extract_loop_no_brace (html : jstring) (n idx : nat)
  (results : list value) :
  ~ In 123 html ->
  (idx <= length html + 1)%nat ->
  (length html + 2 <= n + idx)%nat ->
  extract_loop n html (idx, results) = Some results.
Proof.
  intros Hno. revert idx.
  induction n as [|n IH]; intros idx Hidx Hn; [lia|].
  rewrite extract_loop_S.
  pose proof (extract_step_no_brace html idx results Hno) as Hs.
  destruct (extract_step html (idx, results)) as [[idx' results']|out].
  - destruct Hs as [Hadv ->]. apply IH; lia.
  - rewrite Hs. reflexivity.
Qed.

(** X3.  On a page without an opening brace, whatever markers it holds,
    the extractor returns, and returns no lot. *)
Theorem no_brace_no_lots (html : jstring) :
  ~ In 123 html ->
  extractLotObjects (length html + 2) html = Some [].
Proof.
  intros Hno. apply extract_loop_no_brace; [exact Hno | lia | lia].
Qed.

Lemma no_brace_forallb (html : jstring) :
  forallb (fun c => negb (c =? 123)) html = true -> ~ In 123 html.
Proof.
  rewrite forallb_forall. intros H Hin. apply H in Hin. discriminate Hin.
Qed.

Lemma no_brace_no_lots_witness :
  ~ In 123 markers_only_html
  /\ extractLotObjects (length markers_only_html + 2) markers_only_html
     = Some [].
Proof.
  assert (~ In 123 markers_only_html) as H.
  { apply no_brace_forallb. vm_compute. reflexivity. }
  split; [exact H|]. exact (no_brace_no_lots _ H).
Defined.

(** ** A page of candidates *)

Lemma extract_loop_page (parts : list (jstring * jstring)) (post a : jstring)
  (results : list value) (fuel : nat) :
  Forall (fun p => no_quote p.1 /\ whole_candidate p.2) parts ->
  indexOf post marker 0 = None ->
  extract_loop (S (length parts) + fuel) (a ++ page_of parts post)
    (length a, results)
  = Some (results ++ parsed_parts parts).
Proof.
  intros Hparts Hpost. revert a results.
  induction Hparts as [|[sep c] parts [Hsep Hc] _ IH]; intros a results.
  - simpl page_of. simpl length. rewrite extract_loop_S.
    unfold extract_step. rewrite indexOf_at.
    unfold indexOf in Hpost. rewrite drop_0 in Hpost. simpl in Hpost.
    rewrite Hpost. simpl. rewrite app_nil_r. reflexivity.
  - simpl in Hsep, Hc. destruct Hc as (k & Hk & H0 & Hs & Hf).
    simpl page_of. simpl length.
    change (S (S (length parts)) + fuel)%nat
      with (S (S (length parts) + fuel)).
    rewrite extract_loop_S.
    assert (a ++ sep ++ c ++ page_of parts post
            = (a ++ sep) ++ c ++ page_of parts post) as Hassoc
      by (rewrite <- app_assoc; reflexivity).
    destruct (candidate_at_part (a ++ sep) c (page_of parts post)
                (length a) k Hk H0 Hs Hf) as [Hcand Hslice].
    { rewrite <- Hassoc, indexOf_at, (index_from_no_quote _ _ _ Hsep),
        index_from_base.
      unfold indexOf in Hk. rewrite drop_0 in Hk. simpl in Hk.
      rewrite (index_from_app _ _ _ _ _ Hk). simpl. f_equal.
      rewrite length_app. lia. }
    rewrite <- Hassoc in Hcand, Hslice.
    rewrite (extract_step_candidate _ _ _ _ results Hcand), Hslice.
    assert (0 < length c)%nat as Hlen
      by (destruct c; [discriminate | simpl; lia]).
    replace (length (a ++ sep) + (length c - 1) + 1)%nat
      with (length (a ++ sep ++ c)) by (rewrite !length_app; lia).
    replace (a ++ sep ++ c ++ page_of parts post)
      with ((a ++ sep ++ c) ++ page_of parts post)
      by (rewrite <- !app_assoc; reflexivity).
    rewrite IH. simpl parsed_parts.
    destruct (parse_candidate c); [rewrite <- app_assoc|]; reflexivity.
Qed.

(** X4.  On a page made of candidates, each one whole and after text
    without a double quote, and of a tail without the marker, the extractor
    returns, after one turn for each candidate and one more, the objects
    that the candidates parse to: all that parse, nothing else, in the
    order of the page. *)
Theorem extract_page_in_order (parts : list (jstring * jstring))
  (post : jstring) (fuel : nat) :
  Forall (fun p => no_quote p.1 /\ whole_candidate p.2) parts ->
  indexOf post marker 0 = None ->
  extractLotObjects (S (length parts) + fuel) (page_of parts post)
  = Some (parsed_parts parts).
Proof.
  intros Hparts Hpost.
  exact (extract_loop_page parts post [] [] fuel Hparts Hpost).
Qed.

Lemma whole_candidate_intro (c : jstring) (k : nat) :
  indexOf c marker 0 = Some k ->
  c !! 0%nat = Some 123 ->
  scan_left c k = 0%nat ->
  match_forward c 0 0 = ((length c - 1)%nat, true) ->
  whole_candidate c.
Proof. intros. exists k. auto. Qed.

Lemma extract_page_in_order_witness :
  Forall (fun p => no_quote p.1 /\ whole_candidate p.2) page_parts
  /\ indexOf (lit "</ul>") marker 0 = None
  /\ extractLotObjects 4 (page_of page_parts (lit "</ul>"))
     = Some [lot5_record; JObj [(lit "lot_number", JStr (lit "2"))]].
Proof.
  assert (Forall (fun p => no_quote p.1 /\ whole_candidate p.2) page_parts)
    as H1.
  { repeat constructor;
      apply (whole_candidate_intro _ 1%nat); vm_compute; reflexivity. }
  assert (indexOf (lit "</ul>") marker 0 = None) as H2
    by (vm_compute; reflexivity).
  split; [exact H1|]. split; [exact H2|].
  exact (extract_page_in_order page_parts (lit "</ul>") 0 H1 H2).
Defined.

(** ** [toNumber] *)

Lemma toNumber_Some (v : value) (x : float) :
  toNumber v = Some x -> isFinite x = true.
Proof.
  destruct v; simpl; try discriminate.
  - destruct (isFinite x0) eqn:E; [intros [= <-]; exact E | discriminate].
  - destruct (isFinite (parseFloat (strip_commas s))) eqn:E;
      [intros [= <-]; exact E | discriminate].
Qed.

(** X5.  [toNumber] never returns [NaN] or an infinity: what is not [null]
    is finite, be it a number of the page or the [parseFloat] of a
    string. *)
Theorem toNumber_finite (v : value) (x : float) :
  toNumber v = Some x -> isFinite x = true /\ is_nan x = false.
Proof.
  intros H. apply toNumber_Some in H. split; [exact H|].
  unfold isFinite, is_finite in H. apply negb_true_iff, orb_false_iff in H.
  exact (proj1 H).
Qed.

Lemma toNumber_finite_witness :
  toNumber (JStr (lit "2,500.50")) = Some 2500.5%float
  /\ isFinite 2500.5%float = true.
Proof.
  assert (toNumber (JStr (lit "2,500.50")) = Some 2500.5%float) as H
    by (vm_compute; reflexivity).
  split; [exact H|]. exact (proj1 (toNumber_finite _ _ H)).
Defined.

Lemma strip_commas_app (s1 s2 : jstring) :
  strip_commas (s1 ++ s2) = strip_commas s1 ++ strip_commas s2.
Proof. unfold strip_commas. apply List.filter_app. Qed.

(** X6.  [toNumber] passes over a comma wherever it stands in a string, not
    only between groups of three digits: the string with a comma put in and
    the string without it give the same number. *)
Theorem toNumber_ignores_commas (s1 s2 : jstring) :
  toNumber (JStr (s1 ++ 44 :: s2)) = toNumber (JStr (s1 ++ s2)).
Proof.
  simpl. change (44 :: s2) with ([44] ++ s2).
  rewrite !strip_commas_app. reflexivity.
Qed.

(** ** [pickBidForLot] *)

Lemma bid_count_of_TypeError (v : value) :
  bid_count_of v = TypeError <-> bad_bid_count_txt v = true.
Proof.
  unfold bid_count_of, bad_bid_count_txt.
  destruct (truthy v); simpl; [|split; discriminate].
  destruct v; try (split; reflexivity).
  destruct (match_bids s); split; discriminate.
Qed.

Lemma pickBidForLot_TypeError (lot : value) :
  pickBidForLot lot = TypeError
  <-> bad_bid_count_txt (opt_get lot (lit "bid_count_txt")) = true.
Proof.
  rewrite <- bid_count_of_TypeError. unfold pickBidForLot.
  destruct (bid_count_of (opt_get lot (lit "bid_count_txt")));
    cbv [mbind result_bind mret result_ret];
    split; intros H; first [discriminate H | reflexivity].
Qed.

Lemma found_entry_TypeError (lotNum : jstring) (lot : value) :
  found_entry lotNum lot = TypeError
  <-> bad_bid_count_txt (opt_get lot (lit "bid_count_txt")) = true.
Proof.
  rewrite <- pickBidForLot_TypeError. unfold found_entry.
  destruct (pickBidForLot lot);
    cbv [mbind result_bind mret result_ret];
    split; intros H; first [discriminate H | reflexivity].
Qed.

(** X7.  [pickBidForLot] throws exactly on a record whose [bid_count_txt]
    is truthy and no string (a number that is not zero, [true], an array,
    an object), and so does the construction of the entry of a found lot:
    nothing else in a record can make them throw. *)
Theorem pickBidForLot_throws (lotNum : jstring) (lot : value) :
  (pickBidForLot lot = TypeError
   <-> bad_bid_count_txt (opt_get lot (lit "bid_count_txt")) = true)
  /\ (found_entry lotNum lot = TypeError
      <-> bad_bid_count_txt (opt_get lot (lit "bid_count_txt")) = true).
Proof.
  split; [apply pickBidForLot_TypeError | apply found_entry_TypeError].
Qed.

Lemma span_digits_spec (s d r : jstring) :
  span_digits s = (d, r) -> s = d ++ r /\ forallb is_digit d = true.
Proof.
  revert d r. induction s as [|c s IH]; intros d r; simpl.
  - intros [= <- <-]. auto.
  - destruct (is_digit c) eqn:E.
    + destruct (span_digits s) as [d' r'] eqn:Es. intros [= <- <-].
      destruct (IH d' r' eq_refl) as [-> Hd]. simpl. rewrite E, Hd. auto.
    + intros [= <- <-]. auto.
Qed.

Lemma trim_start_spec (s : jstring) :
  exists ws, s = ws ++ trim_start s /\ forallb is_space ws = true.
Proof.
  induction s as [|c s (ws & IH & Hws)]; simpl.
  - exists []. auto.
  - destruct (is_space c) eqn:E.
    + exists (c :: ws). simpl. rewrite E, Hws, <- IH. auto.
    + exists []. auto.
Qed.

Lemma starts_with_spec (p s : jstring) :
  starts_with p s = true -> exists post, s = p ++ post.
Proof.
  revert s. induction p as [|a p IH]; intros s; simpl.
  - eauto.
  - destruct s as [|b s]; [discriminate|].
    intros H. apply andb_true_iff in H. destruct H as [Hab H].
    apply N.eqb_eq in Hab. subst b.
    destruct (IH _ H) as (post & ->). eauto.
Qed.

(** What [match_bids] finds is in the text: digits, one or more, then
    white space or none, then [bid]. *)
Lemma match_bids_spec (s d : jstring) :
  match_bids s = Some d ->
  d <> [] /\ forallb is_digit d = true
  /\ exists pre ws post,
       s = pre ++ d ++ ws ++ lit "bid" ++ post
       /\ forallb is_space ws = true.
Proof.
  induction s as [|c s IH].
  - simpl. unfold bids_at. simpl. discriminate.
  - cbn [match_bids]. destruct (bids_at (c :: s)) as [d'|] eqn:E.
    + intros [= <-]. unfold bids_at in E.
      destruct (span_digits (c :: s)) as [dd r] eqn:Es.
      apply span_digits_spec in Es. destruct Es as [Hs Hd].
      destruct dd as [|d0 dd]; [discriminate E|].
      destruct (starts_with (lit "bid") (trim_start r)) eqn:Eb;
        [|discriminate E].
      injection E as <-. split; [intros Hnil; discriminate Hnil|].
      split; [exact Hd|].
      destruct (trim_start_spec r) as (ws & Hr & Hws).
      apply starts_with_spec in Eb. destruct Eb as (post & Hpost).
      exists [], ws, post. split; [|exact Hws].
      rewrite Hs, Hr, Hpost at 1. reflexivity.
    + intros H. destruct (IH H) as (Hne & Hd & pre & ws & post & -> & Hws).
      split; [exact Hne|]. split; [exact Hd|].
      exists (c :: pre), ws, post. auto.
Qed.

(** X8.  An entry with [has_no_bids] false comes from a record whose own
    [has_no_bids] is not [true] and whose [bid_count_txt] is a string that
    holds digits followed, after white space or none, by [bid]; the entry's
    [bid_count] is [parseInt] of the first such digits and is not zero. *)
Theorem with_bids_entry_origin (lotMap : gmap jstring value)
  (lotNum : jstring) (lot : value) (e : entry) :
  entry_of_found lotMap lotNum lot e ->
  e_has_no_bids e = false ->
  opt_get lot (lit "has_no_bids") <> JBool true
  /\ (e_bid_count e =? 0)%float = false
  /\ exists s d,
       opt_get lot (lit "bid_count_txt") = JStr s
       /\ match_bids s = Some d
       /\ e_bid_count e = parseInt10 d
       /\ d <> [] /\ forallb is_digit d = true
       /\ exists pre ws post,
            s = pre ++ d ++ ws ++ lit "bid" ++ post
            /\ forallb is_space ws = true.
Proof.
  intros He Hno. apply entry_of_found_Ok, found_entry_Ok in He.
  destruct He as (b & Hb & _ & _ & _ & Hcount & Hh).
  apply pickBidForLot_Ok in Hb. destruct Hb as (n & Hn & Hbn & Hnb & _).
  rewrite Hh, Hnb in Hno. apply orb_false_iff in Hno.
  destruct Hno as [Htrue Hzero].
  rewrite Hcount, Hbn. split; [|split; [exact Hzero|]].
  - intros Heq. rewrite Heq in Htrue. discriminate Htrue.
  - unfold bid_count_of in Hn.
    destruct (truthy (opt_get lot (lit "bid_count_txt"))).
    + destruct (opt_get lot (lit "bid_count_txt")) as [| | | |s| |];
        try discriminate Hn.
      destruct (match_bids s) as [d|] eqn:Ed.
      * injection Hn as <-. exists s, d.
        destruct (match_bids_spec s d Ed) as (Hne & Hd & Hsub).
        repeat split; auto.
      * injection Hn as <-. vm_compute in Hzero. discriminate Hzero.
    + injection Hn as <-. vm_compute in Hzero. discriminate Hzero.
Qed.

Lemma with_bids_entry_origin_witness :
  entry_of_found sample_map (lit "5") lot5_record lot5_entry
  /\ e_has_no_bids lot5_entry = false
  /\ (e_bid_count lot5_entry =? 0)%float = false
  /\ exists s d,
       opt_get lot5_record (lit "bid_count_txt") = JStr s
       /\ match_bids s = Some d
       /\ e_bid_count lot5_entry = parseInt10 d.
Proof.
  split; [exact lot5_found|]. split; [reflexivity|].
  destruct (with_bids_entry_origin sample_map (lit "5") lot5_record lot5_entry
              lot5_found eq_refl) as (_ & Hz & s & d & Hs & Hd & Hc & _).
  split; [exact Hz|]. exists s, d. auto.
Defined.

(** ** What every entry satisfies *)

Lemma js_or_null (v : value) : null_or_truthy (js_or v JNull).
Proof.
  unfold null_or_truthy, js_or. destruct (truthy v) eqn:E; auto.
Qed.

Lemma toNumber_null_or_finite (v : value) : null_or_finite (toNumber v).
Proof.
  unfold null_or_finite. destruct (toNumber v) as [x|] eqn:E; [|exact I].
  exact (toNumber_Some v x E).
Qed.

Lemma placeholder_ok (n : float) : entry_ok (placeholder n).
Proof.
  unfold entry_ok, null_or_truthy. simpl.
  repeat split; auto.
Qed.

Lemma found_entry_ok (lotNum : jstring) (lot : value) (e : entry) :
  found_entry lotNum lot = Ok e -> entry_ok e.
Proof.
  unfold found_entry. intros H. inv_bind H. injection H as <-.
  unfold pickBidForLot in Ha. inv_bind Ha. injection Ha as <-.
  unfold entry_ok. cbn [e_current_bid e_next_bid e_shown_amount e_status
    e_estimate e_bid_text e_has_no_bids e_bid_count b_current_bid b_next_bid
    b_currency_text b_bid_count b_has_no_bids].
  split; [|split; [|split; [|split; [|split; [|split; [|split]]]]]].
  - destruct (_ || _); [reflexivity | apply toNumber_null_or_finite].
  - apply toNumber_null_or_finite.
  - reflexivity.
  - apply js_or_null.
  - apply js_or_null.
  - apply js_or_null.
  - intros ->. left. reflexivity.
  - intros H. apply orb_false_iff in H. exact (proj2 H).
Qed.

Lemma entry_for_ok (lotMap : gmap jstring value) (lotNum : jstring)
  (e : entry) :
  entry_for lotMap lotNum = Ok e -> entry_ok e.
Proof.
  unfold entry_for.
  destruct (lotMap !! lotNum) as [lot|]; [destruct (truthy lot)|].
  - apply found_entry_ok.
  - intros [= <-]. apply placeholder_ok.
  - intros [= <-]. apply placeholder_ok.
Qed.

Lemma ensure_entries_ok (targets : list jstring) (es : list entry) :
  Forall entry_ok es -> Forall entry_ok (ensure_entries targets es).
Proof.
  revert es. induction targets as [|t targets IH]; intros es Hes; simpl;
    [exact Hes|].
  apply IH. destruct (existsb _ es); [exact Hes|].
  apply Forall_app. split; [exact Hes|].
  constructor; [apply placeholder_ok | constructor].
Qed.

(** X9.  Every entry of a report is well formed: [current_bid] and
    [next_bid] are [null] or finite numbers, [shown_amount] is [current_bid]
    when that is a number and [next_bid] otherwise, [status], [estimate]
    and [bid_text] are [null] or truthy (never an empty string), an entry
    without bids has [current_bid] 0 or [null], and an entry with bids has
    a [bid_count] that is not zero. *)
Theorem report_entries_ok (targets : list jstring) (allLots : list value)
  (r : report) :
  build_report targets allLots = Ok r -> Forall entry_ok (entries r).
Proof.
  intros H. apply build_report_Ok in H.
  destruct H as (lotMap & es0 & _ & HF & -> & _).
  eapply Permutation_Forall; [symmetry; apply sort_perm|].
  apply ensure_entries_ok.
  induction HF as [|t e ts es He _ IH]; constructor; [|exact IH].
  exact (entry_for_ok _ _ _ He).
Qed.

Lemma report_entries_ok_witness :
  build_report TARGET_LOTS sample_lots = Ok sample_report
  /\ Forall entry_ok (entries sample_report).
Proof.
  split; [exact sample_report_built|].
  exact (report_entries_ok TARGET_LOTS sample_lots sample_report
           sample_report_built).
Defined.

(** ** The counts *)

Lemma filter_split_length {A} (f : A -> bool) (l : list A) :
  (length (List.filter (fun x => negb (f x)) l) + length (List.filter f l))%nat
  = length l.
Proof.
  induction l as [|x l IH]; simpl; [reflexivity|].
  destruct (f x); simpl; lia.
Qed.

(** X10.  The two counts of a report split its entries: [lots_with_bids]
    and [lots_without_bids] add up to the number of entries, which is the
    number of requested lots when their identifiers are numbers. *)
Theorem report_counts (targets : list jstring) (allLots : list value)
  (r : report) :
  build_report targets allLots = Ok r ->
  (lots_with_bids r + lots_without_bids r)%nat = length (entries r)
  /\ (numeric_lots targets -> length (entries r) = length targets).
Proof.
  intros H. split.
  - unfold build_report in H. inv_bind H. inv_bind H. injection H as <-.
    cbn [lots_with_bids lots_without_bids entries].
    apply filter_split_length.
  - intros Hnum.
    destruct (report_entries_perm _ _ _ Hnum H) as (es0 & Hp & HF & _).
    rewrite (Permutation_length Hp). symmetry.
    exact (Forall2_length _ _ _ HF).
Qed.

Lemma report_counts_witness :
  build_report TARGET_LOTS sample_lots = Ok sample_report
  /\ numeric_lots TARGET_LOTS
  /\ (lots_with_bids sample_report + lots_without_bids sample_report)%nat
     = 20%nat
  /\ length (entries sample_report) = 20%nat.
Proof.
  split; [exact sample_report_built|]. split; [exact TARGET_LOTS_numeric|].
  destruct (report_counts TARGET_LOTS sample_lots sample_report
              sample_report_built) as [Hsum Hlen].
  specialize (Hlen TARGET_LOTS_numeric).
  split; [rewrite Hsum|]; exact Hlen.
Defined.

(** X11.  With identifiers that are numbers, the lot numbers of the
    entries are, in the same order, the [lots_requested] of the report: the
    second loop over the targets has added nothing. *)
Theorem entries_follow_lots_requested (targets : list jstring)
  (allLots : list value) (r : report) :
  numeric_lots targets ->
  build_report targets allLots = Ok r ->
  List.map e_lot (entries r) = lots_requested r.
Proof.
  intros Hnum H.
  destruct (report_entries_perm _ _ _ Hnum H) as (_ & _ & _ & Hl). exact Hl.
Qed.

Lemma entries_follow_lots_requested_witness :
  numeric_lots TARGET_LOTS
  /\ build_report TARGET_LOTS sample_lots = Ok sample_report
  /\ List.map e_lot (entries sample_report) = lots_requested sample_report.
Proof.
  split; [exact TARGET_LOTS_numeric|]. split; [exact sample_report_built|].
  exact (entries_follow_lots_requested TARGET_LOTS sample_lots sample_report
           TARGET_LOTS_numeric sample_report_built).
Defined.

(** ** The map of lots *)

Lemma has_key_true (k : jstring) (lot : value) :
  has_key k lot = true <-> lot_key lot = Ok k.
Proof.
  unfold has_key. destruct (lot_key lot) as [k'|]; [|split; discriminate].
  rewrite bool_decide_eq_true. split; congruence.
Qed.

(** X12.  What [lotMap] holds under an identifier is a lot of the page
    that carries that identifier, and an identifier is in the map exactly
    when some lot of the page carries it: no lot is invented, none of a
    new identifier is lost. *)
Theorem lotMap_holds_page_lots (allLots : list value)
  (lotMap : gmap jstring value) :
  build_lotMap allLots ∅ = Ok lotMap ->
  (forall k lot, lotMap !! k = Some lot -> In lot allLots /\ lot_key lot = Ok k)
  /\ (forall k, is_Some (lotMap !! k)
                <-> exists lot, In lot allLots /\ lot_key lot = Ok k).
Proof.
  intros H.
  assert (forall k, lotMap !! k = List.find (has_key k) allLots) as Hfind.
  { intros k. rewrite (build_lotMap_lookup _ _ _ k H), lookup_empty.
    reflexivity. }
  split.
  - intros k lot Hk. rewrite Hfind in Hk. apply List.find_some in Hk.
    destruct Hk as [Hin Hkey]. apply has_key_true in Hkey. auto.
  - intros k. rewrite Hfind. split.
    + intros [lot Hk]. apply List.find_some in Hk.
      destruct Hk as [Hin Hkey]. apply has_key_true in Hkey. eauto.
    + intros (lot & Hin & Hkey).
      destruct (List.find (has_key k) allLots) as [lot'|] eqn:E; [eauto|].
      exfalso. apply (List.find_none _ _ E lot) in Hin.
      apply has_key_true in Hkey. congruence.
Qed.

Lemma lotMap_holds_page_lots_witness :
  build_lotMap sample_lots ∅ = Ok sample_map
  /\ sample_map !! lit "5" = Some lot5_record
  /\ In lot5_record sample_lots
  /\ lot_key lot5_record = Ok (lit "5").
Proof.
  assert (sample_map !! lit "5" = Some lot5_record) as Hk
    by (vm_compute; reflexivity).
  split; [exact sample_map_built|]. split; [exact Hk|].
  exact (proj1 (lotMap_holds_page_lots sample_lots sample_map sample_map_built)
           (lit "5") lot5_record Hk).
Defined.

(** ** When [main] throws *)

Lemma build_lotMap_TypeError (allLots : list value)
  (m : gmap jstring value) :
  build_lotMap allLots m = TypeError
  <-> Exists (fun lot => lot_key lot = TypeError) allLots.
Proof.
  revert m. induction allLots as [|lot rest IH]; intros m; simpl.
  - split; [discriminate | intros H; inversion H].
  - destruct (lot_key lot) as [k|] eqn:E;
      cbv [mbind result_bind].
    + rewrite IH. split; [intros H; right; exact H|].
      intros H. inversion H as [? ? Hk|? ? Ht]; subst; [congruence | exact Ht].
    + split; [intros _; left; exact E | reflexivity].
Qed.

Lemma build_entries_TypeError (lotMap : gmap jstring value)
  (targets : list jstring) (acc : list entry) :
  build_entries lotMap targets acc = TypeError
  <-> Exists (fun t => entry_for lotMap t = TypeError) targets.
Proof.
  revert acc. induction targets as [|t rest IH]; intros acc; simpl.
  - split; [discriminate | intros H; inversion H].
  - destruct (entry_for lotMap t) as [e|] eqn:E;
      cbv [mbind result_bind].
    + rewrite IH. split; [intros H; right; exact H|].
      intros H. inversion H as [? ? Hk|? ? Ht]; subst; [congruence | exact Ht].
    + split; [intros _; left; exact E | reflexivity].
Qed.

Lemma entry_for_TypeError (lotMap : gmap jstring value) (t : jstring) :
  entry_for lotMap t = TypeError
  <-> exists lot,
        lotMap !! t = Some lot /\ truthy lot = true
        /\ bad_bid_count_txt (opt_get lot (lit "bid_count_txt")) = true.
Proof.
  unfold entry_for. destruct (lotMap !! t) as [lot|].
  - destruct (truthy lot) eqn:Et.
    + rewrite found_entry_TypeError. split; [eauto|].
      intros (lot' & [= <-] & _ & H). exact H.
    + split; [discriminate|]. intros (lot' & [= <-] & H & _). congruence.
  - split; [discriminate|]. intros (lot' & H & _). discriminate H.
Qed.

Lemma lot_key_primitive (lot : value) :
  match opt_get lot (lit "lot_number") with
  | JObj _ | JArr _ => False
  | _ => True
  end ->
  lot_key lot <> TypeError.
Proof.
  unfold lot_key.
  destruct (opt_get lot (lit "lot_number")) as [| |b|x|s| |];
    try contradiction; intros _; unfold js_or;
    match goal with |- context [truthy ?v] => destruct (truthy v) end;
    try destruct b; cbn; discriminate.
Qed.

(** X13.  Once the lots are extracted, [main] throws in two cases only: a
    lot of the page has a [lot_number] that [String] cannot print (then the
    [lot_number] is an object or an array), or a requested lot that is on
    the page has a [bid_count_txt] that is truthy and no string.  A record
    that is not requested never makes [main] throw by its [bid_count_txt]. *)
Theorem main_throws (targets : list jstring) (allLots : list value) :
  (build_report targets allLots = TypeError
   <-> Exists (fun lot => lot_key lot = TypeError) allLots
       \/ exists lotMap t lot,
            build_lotMap allLots ∅ = Ok lotMap
            /\ In t targets /\ lotMap !! t = Some lot /\ truthy lot = true
            /\ bad_bid_count_txt (opt_get lot (lit "bid_count_txt")) = true)
  /\ (forall lot,
        match opt_get lot (lit "lot_number") with
        | JObj _ | JArr _ => False
        | _ => True
        end ->
        lot_key lot <> TypeError).
Proof.
  split; [|exact lot_key_primitive].
  unfold build_report.
  destruct (build_lotMap allLots ∅) as [lotMap|] eqn:Hm.
  - cbv [mbind result_bind].
    destruct (build_entries lotMap targets []) as [es|] eqn:He.
    + split; [discriminate|]. intros [Hex|(m' & t & lot & Hm' & Hin & Hl & Ht & Hb)].
      * apply (build_lotMap_TypeError allLots ∅) in Hex. congruence.
      * injection Hm' as <-.
        assert (build_entries lotMap targets [] = TypeError) as Hthrow.
        { apply build_entries_TypeError, Exists_exists. exists t.
          split; [apply list_elem_of_In; exact Hin|].
          apply entry_for_TypeError. eauto. }
        congruence.
    + split; [|reflexivity]. intros _. right.
      apply build_entries_TypeError, Exists_exists in He.
      destruct He as (t & Hin & Ht). apply entry_for_TypeError in Ht.
      destruct Ht as (lot & Hl & Htr & Hb).
      exists lotMap, t, lot. rewrite list_elem_of_In in Hin. auto.
  - cbv [mbind result_bind]. split; [|reflexivity]. intros _. left.
    apply (build_lotMap_TypeError allLots ∅). exact Hm.
Qed.

(** Lot 69 is requested: its record with a number for [bid_count_txt]
    stops [main]; the same record under a lot that is not requested does
    not. *)
Example bad_bid_count_txt_example :
  build_report TARGET_LOTS [lot5_record; lot69_record] = TypeError
  /\ exists r,
       build_report (List.map lit ["5"; "18"]%string)
         [lot5_record; lot69_record] = Ok r.
Proof. split; [|eexists]; vm_compute; reflexivity. Qed.

(** ** A page without the requested lots *)

Lemma build_entries_absent (lotMap : gmap jstring value)
  (targets : list jstring) (acc : list entry) :
  (forall t, In t targets -> lotMap !! t = None) ->
  build_entries lotMap targets acc
  = Ok (acc ++ List.map (fun t => placeholder (Number_of_string t)) targets).
Proof.
  revert acc. induction targets as [|t rest IH]; intros acc H; simpl.
  - rewrite app_nil_r. reflexivity.
  - unfold entry_for. rewrite (H t) by (left; reflexivity).
    cbv [mbind result_bind mret result_ret].
    rewrite IH by (intros t' Ht'; apply H; right; exact Ht').
    rewrite <- app_assoc. reflexivity.
Qed.

Lemma ensure_entries_placeholders (targets : list jstring)
  (es : list entry) :
  Forall (fun e => e = placeholder (e_lot e)) es ->
  Forall (fun e => e = placeholder (e_lot e)) (ensure_entries targets es).
Proof.
  revert es. induction targets as [|t targets IH]; intros es Hes; simpl;
    [exact Hes|].
  apply IH. destruct (existsb _ es); [exact Hes|].
  apply Forall_app. split; [exact Hes|].
  constructor; [reflexivity | constructor].
Qed.

Lemma total_of_no_bids (es : list entry) :
  Forall (fun e => e_has_no_bids e = true) es ->
  total_of es = zero /\ with_bids es = [].
Proof.
  intros H. rewrite total_of_sum.
  assert (with_bids es = []) as ->; [|split; reflexivity].
  induction H as [|e es He _ IH]; [reflexivity|].
  unfold with_bids in *. simpl. rewrite He. simpl. exact IH.
Qed.

(** X14.  When none of the requested lots is on the page, [main] does not
    throw on its entries: the report holds placeholders only, its [total]
    is 0, no lot counts as having bids. *)
Theorem no_requested_lot_on_page (targets : list jstring)
  (allLots : list value) (lotMap : gmap jstring value) :
  build_lotMap allLots ∅ = Ok lotMap ->
  (forall t, In t targets -> lotMap !! t = None) ->
  exists r,
    build_report targets allLots = Ok r
    /\ Forall (fun e => e = placeholder (e_lot e)) (entries r)
    /\ total r = zero
    /\ lots_with_bids r = 0%nat
    /\ lots_without_bids r = length (entries r).
Proof.
  intros Hm Habsent. unfold build_report. rewrite Hm.
  cbv [mbind result_bind]. rewrite (build_entries_absent _ _ _ Habsent).
  cbv [mret result_ret]. eexists. split; [reflexivity|].
  cbn [entries total lots_with_bids lots_without_bids].
  set (es := sort _ _).
  assert (Forall (fun e => e = placeholder (e_lot e)) es) as Hes.
  { subst es. eapply Permutation_Forall; [symmetry; apply sort_perm|].
    apply ensure_entries_placeholders. simpl.
    apply Forall_forall. intros e He. apply list_elem_of_In, in_map_iff in He.
    destruct He as (t & <- & _). reflexivity. }
  assert (Forall (fun e => e_has_no_bids e = true) es) as Hno.
  { eapply Forall_impl; [exact Hes|]. intros e ->. reflexivity. }
  destruct (total_of_no_bids es Hno) as [Htot Hwith].
  split; [exact Hes|]. split; [exact Htot|].
  unfold with_bids in Hwith. rewrite Hwith.
  split; [reflexivity|].
  pose proof (filter_split_length (fun e => e_has_no_bids e) es) as Hsplit.
  cbv beta in Hsplit. rewrite Hwith in Hsplit. exact Hsplit.
Qed.

Lemma no_requested_lot_on_page_witness :
  build_lotMap [lot5_record] ∅ = Ok (<[lit "5" := lot5_record]> ∅)
  /\ (forall t, In t (List.map lit ["18"; "20"]%string) ->
                (<[lit "5" := lot5_record]> ∅ : gmap jstring value) !! t = None)
  /\ exists r,
       build_report (List.map lit ["18"; "20"]%string) [lot5_record] = Ok r
       /\ total r = zero /\ lots_with_bids r = 0%nat.
Proof.
  assert (forall t, In t (List.map lit ["18"; "20"]%string) ->
            (<[lit "5" := lot5_record]> ∅ : gmap jstring value) !! t = None)
    as Habsent.
  { intros t [<-|[<-|[]]]; vm_compute; reflexivity. }
  split; [exact lot5_map|]. split; [exact Habsent|].
  destruct (no_requested_lot_on_page (List.map lit ["18"; "20"]%string)
              [lot5_record] _ lot5_map Habsent)
    as (r & Hr & _ & Ht & Hw & _).
  exists r. auto.
Defined.

(** X15.  A page without an opening brace (an empty page, an error page)
    still gives a report: [main] returns within as many turns of the
    extractor as the page has code units and two, and writes the twenty
    lots of [TARGET_LOTS] as placeholders, in ascending order, with a
    [total] of 0. *)
Theorem main_on_page_without_lots (html : jstring) :
  ~ In 123 html ->
  exists r,
    main (length html + 2) html = Some (Ok r)
    /\ entries r = List.map placeholder target_numbers
    /\ lots_requested r = target_numbers
    /\ total r = zero
    /\ lots_with_bids r = 0%nat
    /\ lots_without_bids r = 20%nat.
Proof.
  intros Hno. unfold main, main_for, extractLotObjects.
  rewrite (extract_loop_no_brace html _ 0 [] Hno) by lia.
  eexists. split; [reflexivity|].
  repeat split; vm_compute; reflexivity.
Qed.

Lemma main_on_page_without_lots_witness :
  ~ In 123 markers_only_html
  /\ exists r,
       main (length markers_only_html + 2) markers_only_html = Some (Ok r)
       /\ entries r = List.map placeholder target_numbers
       /\ total r = zero.
Proof.
  assert (~ In 123 markers_only_html) as H
    by (apply no_brace_forallb; vm_compute; reflexivity).
  split; [exact H|].
  destruct (main_on_page_without_lots markers_only_html H)
    as (r & Hr & He & _ & Ht & _).
  exists r. auto.
Defined.

(** ** [extractAuctionClosingTime] *)

Example match_key_value_examples :
  List.map (fun s => match_key_value (q "'end_date':") (q s))
    ["{'end_date':   '2025-01-01T00:00:00Z'}"; "{'end_date': ''}";
     "{'end_date': 'abc"; "'end_date':'a', 'end_date':'b'";
     "'end_date' : 'a'"; "'the_end_date':'a'"]%string
  = [Some (lit "2025-01-01T00:00:00Z"); None; None; Some (lit "a"); None;
     None].
Proof. vm_compute. reflexivity. Qed.

Lemma span_not_quote_spec (s v r : jstring) :
  span_not_quote s = (v, r) -> s = v ++ r /\ ~ In 34 v.
Proof.
  revert v r. induction s as [|c s IH]; intros v r; simpl.
  - intros [= <- <-]. auto.
  - destruct (N.eqb_spec c 34) as [->|Hc].
    + intros [= <- <-]. auto.
    + destruct (span_not_quote s) as [v' r'] eqn:E. intros [= <- <-].
      destruct (IH v' r' eq_refl) as [-> Hv]. split; [reflexivity|].
      intros [Heq|Hin]; [congruence | exact (Hv Hin)].
Qed.

Lemma quoted_value_spec (s v : jstring) :
  quoted_value s = Some v ->
  v <> [] /\ ~ In 34 v
  /\ exists ws post,
       s = ws ++ 34 :: v ++ 34 :: post /\ forallb is_space ws = true.
Proof.
  unfold quoted_value. destruct (trim_start_spec s) as (ws & Hs & Hws).
  destruct (trim_start s) as [|c r]; [discriminate|].
  destruct (N.eqb_spec c 34) as [->|_]; [|discriminate].
  destruct (span_not_quote r) as [v' r'] eqn:E.
  apply span_not_quote_spec in E. destruct E as [-> Hv].
  destruct v' as [|v0 v']; [discriminate|].
  destruct r' as [|c' post]; [discriminate|].
  destruct (N.eqb_spec c' 34) as [->|_]; [|discriminate].
  intros [= <-]. split; [intros Hnil; discriminate Hnil|]. split; [exact Hv|].
  exists ws, post. split; [exact Hs | exact Hws].
Qed.

(** What a pattern finds is on the page: the key, white space or none,
    and the group between two double quotes. *)
Lemma match_key_value_spec (key s v : jstring) :
  match_key_value key s = Some v ->
  v <> [] /\ ~ In 34 v
  /\ exists pre ws post,
       s = pre ++ key ++ ws ++ 34 :: v ++ 34 :: post
       /\ forallb is_space ws = true.
Proof.
  assert (forall s, key_value_at key s = Some v ->
            v <> [] /\ ~ In 34 v
            /\ exists ws post,
                 s = key ++ ws ++ 34 :: v ++ 34 :: post
                 /\ forallb is_space ws = true) as Hat.
  { intros s0. unfold key_value_at.
    destruct (starts_with key s0) eqn:E; [|discriminate].
    apply starts_with_spec in E. destruct E as (rest & ->).
    rewrite drop_app_length. intros H. apply quoted_value_spec in H.
    destruct H as (Hne & Hq & ws & post & -> & Hws). eauto 10. }
  induction s as [|c s IH]; cbn [match_key_value].
  - destruct (key_value_at key []) eqn:E; [|discriminate].
    intros [= ->]. destruct (Hat _ E) as (Hne & Hq & ws & post & Hs & Hws).
    split; [exact Hne|]. split; [exact Hq|]. exists [], ws, post. auto.
  - destruct (key_value_at key (c :: s)) eqn:E.
    + intros [= ->]. destruct (Hat _ E) as (Hne & Hq & ws & post & Hs & Hws).
      split; [exact Hne|]. split; [exact Hq|]. exists [], ws, post. auto.
    + intros H. destruct (IH H) as (Hne & Hq & pre & ws & post & -> & Hws).
      split; [exact Hne|]. split; [exact Hq|].
      exists (c :: pre), ws, post. auto.
Qed.

Lemma match_key_value_absent (key s : jstring) (base : nat) :
  index_from key s base = None -> match_key_value key s = None.
Proof.
  revert base. induction s as [|c s IH]; intros base; simpl;
    unfold key_value_at.
  - destruct (starts_with key []); [discriminate | reflexivity].
  - destruct (starts_with key (c :: s)); [discriminate|]. apply IH.
Qed.

Section ClosingFacts.
Variable Date_parse : jstring -> float.
Variable Date_toISOString : float -> jstring.
Variable Date_now : float.

Lemma closing_from_Some (html : jstring) (patterns : list jstring)
  (c : closing) :
  closing_from Date_parse Date_toISOString Date_now html patterns = Some c ->
  exists key,
    In key patterns
    /\ match_key_value key html = Some (closing_time c)
    /\ is_nan (Date_parse (closing_time c)) = false
    /\ closing_timestamp c = Date_toISOString (Date_parse (closing_time c))
    /\ time_remaining_ms c = (Date_parse (closing_time c) - Date_now)%float.
Proof.
  induction patterns as [|p rest IH]; simpl; [discriminate|].
  assert (closing_from Date_parse Date_toISOString Date_now html rest = Some c ->
          exists key,
            (p = key \/ In key rest)
            /\ match_key_value key html = Some (closing_time c)
            /\ is_nan (Date_parse (closing_time c)) = false
            /\ closing_timestamp c
               = Date_toISOString (Date_parse (closing_time c))
            /\ time_remaining_ms c
               = (Date_parse (closing_time c) - Date_now)%float) as Hrest.
  { intros H. destruct (IH H) as (key & Hin & Hrest). exists key. auto. }
  destruct (match_key_value p html) as [m1|] eqn:Em; [|exact Hrest].
  destruct (is_nan (Date_parse m1)) eqn:En; [exact Hrest|].
  intros [= <-]. exists p. simpl. auto.
Qed.

(** X16.  What [extractAuctionClosingTime] returns comes from the page and
    from a valid date: [closing_time] is not empty, holds no double quote
    and stands on the page between two double quotes after one of the four
    keys (white space allowed after the colon); the date it spells is
    valid, [closing_timestamp] is its print and [time_remaining_ms] its
    distance from now. *)
Theorem closing_time_origin (html : jstring) (c : closing) :
  extractAuctionClosingTime Date_parse Date_toISOString Date_now html = Some c ->
  closing_time c <> [] /\ ~ In 34 (closing_time c)
  /\ (exists key pre ws post,
         In key closing_patterns
         /\ html = pre ++ key ++ ws ++ 34 :: closing_time c ++ 34 :: post
         /\ forallb is_space ws = true)
  /\ is_nan (Date_parse (closing_time c)) = false
  /\ closing_timestamp c = Date_toISOString (Date_parse (closing_time c))
  /\ time_remaining_ms c = (Date_parse (closing_time c) - Date_now)%float.
Proof.
  intros H. apply closing_from_Some in H.
  destruct H as (key & Hin & Hm & Hvalid & Hts & Hrem).
  apply match_key_value_spec in Hm.
  destruct Hm as (Hne & Hq & pre & ws & post & Hs & Hws).
  split; [exact Hne|]. split; [exact Hq|].
  split; [exists key, pre, ws, post; auto|]. auto.
Qed.

(** X17.  On a page that holds none of the four keys,
    [extractAuctionClosingTime] returns [null], whatever [Date] does. *)
Theorem closing_time_absent (html : jstring) :
  (forall key, In key closing_patterns -> indexOf html key 0 = None) ->
  extractAuctionClosingTime Date_parse Date_toISOString Date_now html = None.
Proof.
  intros H. unfold extractAuctionClosingTime.
  assert (forall key, In key closing_patterns ->
            match_key_value key html = None) as Hnone.
  { intros key Hin. specialize (H key Hin). unfold indexOf in H.
    rewrite drop_0 in H. exact (match_key_value_absent _ _ _ H). }
  induction closing_patterns as [|p rest IH]; [reflexivity|].
  simpl. rewrite (Hnone p) by (left; reflexivity).
  apply IH.
  - intros key Hin. apply H. right. exact Hin.
  - intros key Hin. apply Hnone. right. exact Hin.
Qed.
End ClosingFacts.

Lemma closing_time_origin_witness :
  extractAuctionClosingTime toy_Date_parse Number_toString 0%float closing_html
  = Some closing_sample
  /\ closing_time closing_sample = lit "1700000000000"
  /\ is_nan (toy_Date_parse (closing_time closing_sample)) = false.
Proof.
  assert (extractAuctionClosingTime toy_Date_parse Number_toString 0%float
            closing_html = Some closing_sample) as H
    by (vm_compute; reflexivity).
  split; [exact H|]. split; [reflexivity|].
  exact (proj1 (proj2 (proj2 (proj2
           (closing_time_origin toy_Date_parse Number_toString 0%float
              closing_html closing_sample H))))).
Defined.

Lemma closing_time_absent_witness :
  (forall key, In key closing_patterns -> indexOf lot5_html key 0 = None)
  /\ extractAuctionClosingTime toy_Date_parse Number_toString 0%float lot5_html
     = None.
Proof.
  assert (forall key, In key closing_patterns ->
            indexOf lot5_html key 0 = None) as H.
  { intros key [<-|[<-|[<-|[<-|[]]]]]; vm_compute; reflexivity. }
  split; [exact H|].
  exact (closing_time_absent toy_Date_parse Number_toString 0%float lot5_html H).
Defined.
